(** * Exploratory analysis of the 1986 constituent-assembly suggestions

    A shallow embedding of [analise_constituinte.py]: the table the script
    loads, the pandas operations it calls on that table, and the six
    analysis functions with the main block that runs them.

    The script keeps one DataFrame object and hands it to every analysis;
    the analyses assign columns of that object.  The embedding threads the
    table through a small state-and-exception monad, so that an assignment
    made by one analysis is seen by the next one. *)

From Stdlib Require Import List String Ascii Bool Arith ZArith Lia.
From Stdlib Require Import Permutation Sorted.
Import ListNotations.

Open Scope string_scope.
Open Scope list_scope.
Open Scope nat_scope.

(** ** Text

    The file is read with [encoding='latin-1']: every character of every
    cell is one byte, and [ascii] is that byte.  Letters outside ASCII are
    written by their Latin-1 code. *)

Module Latin1.

Definition ch (n : nat) : string := String (ascii_of_nat n) EmptyString.

Definition A_agudo : string := ch 193.   (* U+00C1 *)
Definition A_til : string := ch 195.     (* U+00C3 *)
Definition a_til : string := ch 227.     (* U+00E3 *)
Definition e_agudo : string := ch 233.   (* U+00E9 *)

Definition entre (lo hi n : nat) : bool := (lo <=? n) && (n <=? hi).

(** [str.lower()] on a Latin-1 character: A-Z and the accented capitals
    U+00C0..U+00DE (the multiplication sign U+00D7 apart) move 32 places
    up; every other character is left as it is. *)
Definition lower_char (c : ascii) : ascii :=
  let n := nat_of_ascii c in
  if entre 65 90 n || (entre 192 222 n && negb (n =? 215))
  then ascii_of_nat (n + 32)
  else c.

(** The character class of the script's pattern,
    [[a-z] + a' e' i' o' u' a^ e^ i^ o^ u^ a~ o~ c,]. *)
Definition classe : list nat :=
  [225; 233; 237; 243; 250; 226; 234; 238; 244; 251; 227; 245; 231].

Definition letra (c : ascii) : bool :=
  let n := nat_of_ascii c in
  entre 97 122 n || existsb (Nat.eqb n) classe.

(** [\w] of a [str] pattern on Latin-1 text: the characters Python calls
    alphanumeric, and the underscore. *)
Definition palavra_char (c : ascii) : bool :=
  let n := nat_of_ascii c in
  entre 48 57 n || entre 65 90 n || (n =? 95) || entre 97 122 n
  || existsb (Nat.eqb n) [170; 178; 179; 181; 185; 186; 188; 189; 190]
  || entre 192 214 n || entre 216 246 n || entre 248 255 n.

End Latin1.

Definition NAO_INFORMADO : string :=
  ("N" ++ Latin1.A_til ++ "O INFORMADO")%string.

(** ** The table *)

Record Timestamp := { ano : Z; mes : Z; dia : Z }.

(** A cell of the DATA column: as loaded it is a missing value or text;
    once [pd.to_datetime] has been assigned it is a timestamp or [NaT]. *)
Inductive celula_data :=
| NaN
| Texto (s : string)
| NaT
| Instante (t : Timestamp).

(** The seven columns the analyses read.  [None] is pandas' missing value. *)
Record Registro := {
  SEXO : option string;
  FAIXA_ETARIA : option string;
  INSTRUCAO : option string;
  ESTADO_CIVIL : option string;
  UF : option string;
  DATA : celula_data;
  SUGESTAO_TEXTO : option string
}.

Definition DataFrame := list Registro.

Definition set_SEXO (v : option string) (r : Registro) : Registro :=
  {| SEXO := v; FAIXA_ETARIA := FAIXA_ETARIA r; INSTRUCAO := INSTRUCAO r;
     ESTADO_CIVIL := ESTADO_CIVIL r; UF := UF r; DATA := DATA r;
     SUGESTAO_TEXTO := SUGESTAO_TEXTO r |}.

Definition set_FAIXA_ETARIA (v : option string) (r : Registro) : Registro :=
  {| SEXO := SEXO r; FAIXA_ETARIA := v; INSTRUCAO := INSTRUCAO r;
     ESTADO_CIVIL := ESTADO_CIVIL r; UF := UF r; DATA := DATA r;
     SUGESTAO_TEXTO := SUGESTAO_TEXTO r |}.

Definition set_INSTRUCAO (v : option string) (r : Registro) : Registro :=
  {| SEXO := SEXO r; FAIXA_ETARIA := FAIXA_ETARIA r; INSTRUCAO := v;
     ESTADO_CIVIL := ESTADO_CIVIL r; UF := UF r; DATA := DATA r;
     SUGESTAO_TEXTO := SUGESTAO_TEXTO r |}.

Definition set_ESTADO_CIVIL (v : option string) (r : Registro) : Registro :=
  {| SEXO := SEXO r; FAIXA_ETARIA := FAIXA_ETARIA r; INSTRUCAO := INSTRUCAO r;
     ESTADO_CIVIL := v; UF := UF r; DATA := DATA r;
     SUGESTAO_TEXTO := SUGESTAO_TEXTO r |}.

Definition set_UF (v : option string) (r : Registro) : Registro :=
  {| SEXO := SEXO r; FAIXA_ETARIA := FAIXA_ETARIA r; INSTRUCAO := INSTRUCAO r;
     ESTADO_CIVIL := ESTADO_CIVIL r; UF := v; DATA := DATA r;
     SUGESTAO_TEXTO := SUGESTAO_TEXTO r |}.

Definition set_DATA (v : celula_data) (r : Registro) : Registro :=
  {| SEXO := SEXO r; FAIXA_ETARIA := FAIXA_ETARIA r; INSTRUCAO := INSTRUCAO r;
     ESTADO_CIVIL := ESTADO_CIVIL r; UF := UF r; DATA := v;
     SUGESTAO_TEXTO := SUGESTAO_TEXTO r |}.

(** [df[c]]: the column as a series. *)
Definition coluna {A : Type} (c : Registro -> A) (df : DataFrame) : list A :=
  map c df.

(** [df[c] = s]: the series [s] is stored row by row.  The series the
    script assigns always come from the column itself, so they have one
    value per row; a row without a value is kept as it is. *)
Fixpoint atribui {A : Type} (set : A -> Registro -> Registro)
    (s : list A) (df : DataFrame) : DataFrame :=
  match df, s with
  | r :: df', v :: s' => set v r :: atribui set s' df'
  | _, _ => df
  end.

(** ** The pandas operations the script calls *)

Definition Serie := list (string * nat).

(** [s.fillna(v)] *)
Definition preenchido (v : string) (c : option string) : option string :=
  match c with None => Some v | Some _ => c end.

Definition fillna (v : string) (s : list (option string)) : list (option string) :=
  map (preenchido v) s.

Fixpoint dropna (s : list (option string)) : list string :=
  match s with
  | [] => []
  | None :: s' => dropna s'
  | Some x :: s' => x :: dropna s'
  end.

(** One more occurrence of [k] in a table that lists its keys in the order
    they were first met (a hash table that keeps insertion order). *)
Fixpoint regista (k : string) (t : Serie) : Serie :=
  match t with
  | [] => [(k, 1)]
  | (k', n) :: t' =>
      if String.eqb k k' then (k', S n) :: t' else (k', n) :: regista k t'
  end.

Definition conta (l : list string) : Serie :=
  fold_left (fun t k => regista k t) l [].

Definition decrescente (a b : string * nat) : Prop := snd b <= snd a.

(** What the script takes from pandas without saying how it is done:
    [sort_values(ascending=False)] as [value_counts] applies it to the
    table of counts, whose documentation promises the descending order
    and nothing about rows with equal counts; and the reading of one date
    string by [to_datetime(dayfirst=True, errors='coerce')], [None] when
    the string is not a date. *)
Record Pandas := {
  sort_values : Serie -> Serie;
  sort_values_perm : forall t, Permutation (sort_values t) t;
  sort_values_desc : forall t, Sorted decrescente (sort_values t);
  parse_datetime : string -> option Timestamp
}.

Definition head {A : Type} (n : nat) (s : list A) : list A := firstn n s.

Fixpoint loc (k : string) (t : Serie) : option nat :=
  match t with
  | [] => None
  | (k', n) :: t' => if String.eqb k k' then Some n else loc k t'
  end.

Definition reindex (labels : list string) (fill_value : nat) (t : Serie) : Serie :=
  map (fun l => (l, match loc l t with Some n => n | None => fill_value end)) labels.

Definition soma (t : Serie) : nat := list_sum (map snd t).

(** A stable descending sort: [sorted(items, key=count, reverse=True)].
    A row goes in front of the first row whose count is not larger than its
    own, so rows with equal counts keep the order they had. *)
Fixpoint insere (x : string * nat) (t : Serie) : Serie :=
  match t with
  | [] => [x]
  | y :: t' => if snd y <=? snd x then x :: t else y :: insere x t'
  end.

Definition ordena (t : Serie) : Serie := fold_right insere [] t.

(** [Counter.most_common(n)]: the [n] largest counts, equal counts in the
    order first met. *)
Definition most_common (n : nat) (c : Serie) : Serie := firstn n (ordena c).

(** *** Dates and monthly periods *)

(** A monthly period is its ordinal, the number of months since 1970-01. *)
Definition ordinal (t : Timestamp) : Z := ((ano t - 1970) * 12 + (mes t - 1))%Z.

(** [s.dt.to_period('M')] on one cell; [NaT] has no period. *)
Definition to_period_M (c : celula_data) : option Z :=
  match c with
  | Instante t => Some (ordinal t)
  | _ => None
  end.

Definition isnull_data (c : celula_data) : bool :=
  match c with
  | NaN | NaT => true
  | Texto _ | Instante _ => false
  end.

Definition SerieMensal := list (Z * nat).

(** One more record in month [k] of a table kept in increasing order. *)
Fixpoint regista_mes (k : Z) (t : SerieMensal) : SerieMensal :=
  match t with
  | [] => [(k, 1)]
  | (k', n) :: t' =>
      if (k <? k')%Z then (k, 1) :: t
      else if (k =? k')%Z then (k', S n) :: t'
      else (k', n) :: regista_mes k t'
  end.

(** [df.groupby(keys).size()]: rows whose key is missing are left out, the
    groups are the keys that occur, in increasing order. *)
Fixpoint groupby_size (keys : list (option Z)) : SerieMensal :=
  match keys with
  | [] => []
  | None :: ks => groupby_size ks
  | Some k :: ks => regista_mes k (groupby_size ks)
  end.

(** The first row that holds the largest value; no row on an empty
    series. *)
Fixpoint linha_maxima (t : SerieMensal) : option (Z * nat) :=
  match t with
  | [] => None
  | x :: t' =>
      match linha_maxima t' with
      | None => Some x
      | Some y => if snd y <=? snd x then Some x else Some y
      end
  end.

(** [s.idxmax()]: the label of that row. *)
Definition idxmax (t : SerieMensal) : option Z := option_map fst (linha_maxima t).

(** [s.max()] *)
Definition maximo (t : SerieMensal) : nat := list_max (map snd t).

(** [list(index).index(k)] *)
Fixpoint index_of (k : Z) (t : SerieMensal) : option nat :=
  match t with
  | [] => None
  | (k', _) :: t' =>
      if (k =? k')%Z then Some 0 else option_map S (index_of k t')
  end.

(** *** The word pattern *)

Definition Caracteres := list ascii.

Definition e_palavra (c : option ascii) : bool :=
  match c with
  | Some a => Latin1.palavra_char a
  | None => false
  end.

(** [\b] between the character before a position and the one at it. *)
Definition fronteira (antes depois : option ascii) : bool :=
  xorb (e_palavra antes) (e_palavra depois).

Fixpoint sequencia (s : Caracteres) : nat :=
  match s with
  | c :: s' => if Latin1.letra c then S (sequencia s') else 0
  | [] => 0
  end.

(** The repetition [{4,}] is greedy: it takes [k] letters and gives them
    back one at a time, down to four, until [\b] holds after them. *)
Fixpoint recua (k : nat) (s : Caracteres) : option Caracteres :=
  match k with
  | 0 => None
  | S k' =>
      if 4 <=? k then
        if fronteira (nth_error s k') (nth_error s k)
        then Some (firstn k s)
        else recua k' s
      else None
  end.

(** The pattern [\b[a-z...]{4,}\b] tried at one position. *)
Definition casa (antes : option ascii) (s : Caracteres) : option Caracteres :=
  if fronteira antes (nth_error s 0) then recua (sequencia s) s else None.

(** [re.findall]: positions are tried from left to right; after a match
    the search goes on where the match ended ([salta] characters of it are
    still to be passed over). *)
Fixpoint findall_ (antes : option ascii) (salta : nat) (s : Caracteres) : list Caracteres :=
  match s with
  | [] => []
  | c :: s' =>
      match salta with
      | S k => findall_ (Some c) k s'
      | 0 =>
          match casa antes s with
          | Some m => m :: findall_ (Some c) (List.length m - 1) s'
          | None => findall_ (Some c) 0 s'
          end
      end
  end.

Definition lower (s : string) : string :=
  string_of_list_ascii (map Latin1.lower_char (list_ascii_of_string s)).

Definition findall (s : string) : list string :=
  map string_of_list_ascii (findall_ None 0 (list_ascii_of_string s)).

Definition stop_words : list string :=
  [ "que"; "com"; "para"; "uma"; "mais"; "como"; "sobre"; "seus"; "este"; "esta";
    "ser"; "seja"; ("s" ++ Latin1.a_til ++ "o")%string; "mas"; "muito"; "nosso";
    "nossa"; "pelos"; "pelas";
    "essa"; "esse"; "isso"; "aquele"; "aquela"; "entre";
    ("atrav" ++ Latin1.e_agudo ++ "s")%string; "quando" ].

Definition em (p : string) (l : list string) : bool := existsb (String.eqb p) l.

(** ** Console, figures and exceptions *)

Inductive excecao :=
| ValueError
| ZeroDivisionError
| IndexError
| Outra (nome : string).

Inductive secao :=
| Preliminar | Demografica | Geografica | Temporal | Conteudo | ResumoFinal.

(** The lines the script prints, by what they say.  A count that the
    script prints as a percentage of the rows is kept with the number of
    rows it is divided by.  Rules of [=] signs, the preview of the first
    rows, the list of column names and the placeholder insights carry
    nothing the analyses compute and are left out. *)
Inductive mensagem :=
| Iniciando
| Analisando
| ArquivoNaoEncontrado
| CertifiqueSe
| ErroAoCarregar (e : excecao)
| CarregadoComSucesso
| TotalRegistros (n : nat)
| TotalColunas (n : nat)
| Cabecalho (s : secao)
| Faltantes (coluna : string) (faltantes total : nat)
| EstatisticasDetalhadas
| Homens (n total : nat)
| Mulheres (n total : nat)
| SexoNaoInformado (n : nat)
| TopEstados
| Estado (i : nat) (estado : string) (count total : nat)
| MesComMaisSugestoes (mes_pico : Z) (valor_pico : nat)
| TopPalavras
| PalavraChave (i : nat) (palavra : string) (freq : nat)
| TotalAnalisadas (n : nat)
| ParticipacaoMasculina (n total : nat)
| ParticipacaoFeminina (n total : nat)
| EstadoMaisEngajado (estado : string) (n : nat)
| FaixaPredominante (faixa : string)
| GraficoGerado (arquivo : string)
| AnaliseConcluida
| GraficosSalvos
| NaoFoiPossivelCarregar.

Inductive desenho :=
| Pizza (serie : Serie)
| Barras (serie : Serie)
| BarrasHorizontais (serie : Serie)
| Linha (serie : SerieMensal)
| Anotacao (pico_index valor_pico : nat).

Inductive evento :=
| Print (m : mensagem)
| Plot (d : desenho)
| SaveFig (arquivo : string).

Inductive resultado (A : Type) :=
| Ok (a : A)
| Raise (e : excecao).

Arguments Ok {A} a.
Arguments Raise {A} e.

(** A step of the script: from the table as it stands to the table as the
    step leaves it, what was printed and drawn, and a value or the
    exception that ended the step. *)
Definition M (A : Type) : Type := DataFrame -> DataFrame * list evento * resultado A.

Definition ret {A : Type} (a : A) : M A := fun df => (df, [], Ok a).

Definition bind {A B : Type} (m : M A) (f : A -> M B) : M B :=
  fun df =>
    match m df with
    | (df1, t1, Ok a) =>
        match f a df1 with
        | (df2, t2, r) => (df2, t1 ++ t2, r)
        end
    | (df1, t1, Raise e) => (df1, t1, Raise e)
    end.

Definition raise {A : Type} (e : excecao) : M A := fun df => (df, [], Raise e).

Definition emite (e : evento) : M unit := fun df => (df, [e], Ok tt).

Definition print (m : mensagem) : M unit := emite (Print m).

(** The table as it stands. *)
Definition le : M DataFrame := fun df => (df, [], Ok df).

(** [df[c] = f(df[c])] *)
Definition atribui_coluna {A : Type} (c : Registro -> A)
    (set : A -> Registro -> Registro) (f : list A -> list A) : M unit :=
  fun df => (atribui set (f (coluna c df)) df, [], Ok tt).

Declare Scope monad_scope.
Delimit Scope monad_scope with monad.
Notation "x <- m ;; k" := (bind m (fun x => k))
  (at level 61, m at next level, right associativity) : monad_scope.
Notation "m ;; k" := (bind m (fun _ => k))
  (at level 61, right associativity) : monad_scope.
Open Scope monad_scope.

Fixpoint para_cada {A : Type} (f : A -> M unit) (l : list A) : M unit :=
  match l with
  | [] => ret tt
  | x :: l' => f x ;; para_cada f l'
  end.

(** [a / b] on integers, printed as a percentage: the quotient is a float
    the embedding does not compute; the division by zero is kept. *)
Definition divide (a b : nat) : M unit :=
  if b =? 0 then raise ZeroDivisionError else ret tt.

(** [enumerate(l, 1)] *)
Definition enumerate {A : Type} (l : list A) : list (nat * A) :=
  combine (seq 1 (List.length l)) l.

(** The three parts of what a step gives. *)
Definition destino {S A : Type} (x : S * list evento * resultado A) : S :=
  fst (fst x).

Definition eventos {S A : Type} (x : S * list evento * resultado A) : list evento :=
  snd (fst x).

Definition valor {S A : Type} (x : S * list evento * resultado A) : resultado A :=
  snd x.

(** ** Loading *)

(** What [carregar_dados] can find on disk: no file, a file that
    [pd.read_csv] fails on with some exception, or a file it reads.  Of a
    file that is read the embedding keeps the number of columns and the
    seven columns the analyses use. *)
Inductive arquivo :=
| Ausente
| Ilegivel (e : excecao)
| Legivel (colunas : nat) (df : DataFrame).

Definition carregar_dados (a : arquivo) : list evento * option DataFrame :=
  match a with
  | Ausente =>
      ([Print ArquivoNaoEncontrado; Print CertifiqueSe], None)
  | Legivel colunas df =>
      ([Print CarregadoComSucesso; Print (TotalRegistros (List.length df));
        Print (TotalColunas colunas)], Some df)
  | Ilegivel e =>
      ([Print (ErroAoCarregar e)], None)
  end.

(** The load has failed. *)
Definition falha (a : arquivo) : bool :=
  match a with
  | Legivel _ _ => false
  | Ausente | Ilegivel _ => true
  end.

(** A printed line that reports the failure of the load. *)
Definition relato_de_falha (e : evento) : bool :=
  match e with
  | Print ArquivoNaoEncontrado
  | Print (ErroAoCarregar _)
  | Print NaoFoiPossivelCarregar => true
  | _ => false
  end.

(** The mark of an analysis at work: its heading, a drawing, a saved
    figure. *)
Definition de_analise (e : evento) : bool :=
  match e with
  | Print (Cabecalho _) | Plot _ | SaveFig _ => true
  | _ => false
  end.

(** ** Preliminary analysis: missing values per column *)

Definition conta_nulos {A : Type} (nulo : A -> bool) (s : list A) : nat :=
  List.length (filter nulo s).

Definition nulo (c : option string) : bool :=
  match c with None => true | Some _ => false end.

Definition FAIXA_ETARIA_nome : string := ("FAIXA ET" ++ Latin1.A_agudo ++ "RIA")%string.

(** [df.isnull().sum()] *)
Definition isnull_sum (df : DataFrame) : Serie :=
  [ ("SEXO", conta_nulos nulo (coluna SEXO df));
    (FAIXA_ETARIA_nome, conta_nulos nulo (coluna FAIXA_ETARIA df));
    ("INSTRUCAO", conta_nulos nulo (coluna INSTRUCAO df));
    ("ESTADO CIVIL", conta_nulos nulo (coluna ESTADO_CIVIL df));
    ("UF", conta_nulos nulo (coluna UF df));
    ("DATA", conta_nulos isnull_data (coluna DATA df));
    ("SUGESTAO.TEXTO", conta_nulos nulo (coluna SUGESTAO_TEXTO df)) ].

Definition analise_preliminar : M Serie :=
  print (Cabecalho Preliminar) ;;
  df <- le ;;
  let missing := isnull_sum df in
  para_cada (fun cf : string * nat =>
               divide (snd cf) (List.length df) ;;
               print (Faltantes (fst cf) (snd cf) (List.length df)))
            (filter (fun cf => 0 <? snd cf) missing) ;;
  ret missing.

(** ** The analyses *)

Definition ordem_faixa : list string :=
  [ "15 A 19 ANOS"; "20 A 24 ANOS"; "25 A 29 ANOS"; "30 A 39 ANOS";
    "40 A 49 ANOS"; "50 A 59 ANOS"; "ACIMA DE 59 ANOS"; NAO_INFORMADO ].

Record TabelasDemograficas := {
  sexo_counts : Serie;
  faixa_etaria : Serie;
  instrucao : Serie;
  estado_civil : Serie
}.

Record TabelasTemporais := {
  sugestoes_por_mes : SerieMensal;
  mes_pico : Z;
  valor_pico : nat;
  pico_index : nat
}.

Record TabelasConteudo := {
  top_palavras : Serie;
  palavras : list string;
  frequencias : list nat
}.

(** [len(df[df['SEXO'] == v])] *)
Definition com_sexo (v : string) (df : DataFrame) : nat :=
  List.length (filter (fun r => match SEXO r with
                                | Some s => String.eqb s v
                                | None => false
                                end) df).

(** [' '.join(textos)] *)
Definition join (textos : list string) : string := String.concat " " textos.

(** [zip( *pares)] unpacked into two names: with no pair there is nothing
    to unpack. *)
Definition zip2 (pares : Serie) : M (list string * list nat) :=
  match pares with
  | [] => raise ValueError
  | _ :: _ => ret (map fst pares, map snd pares)
  end.

(** [s.index[0]] with [s.iloc[0]] *)
Definition primeiro (s : Serie) : M (string * nat) :=
  match s with
  | [] => raise IndexError
  | x :: _ => ret x
  end.

(** [s.idxmax()] raises on an empty series, [list.index] on a label that
    is not in the list. *)
Definition idxmax_ (t : SerieMensal) : M Z :=
  match idxmax t with
  | Some k => ret k
  | None => raise ValueError
  end.

Definition index_ (k : Z) (t : SerieMensal) : M nat :=
  match index_of k t with
  | Some i => ret i
  | None => raise ValueError
  end.

Section ComPandas.

Variable pd : Pandas.

(** [s.value_counts()]: missing values are dropped, the rest is counted
    in the order first met and the table sorted by count, largest first. *)
Definition value_counts (s : list (option string)) : Serie :=
  sort_values pd (conta (dropna s)).

(** [pd.to_datetime(s, dayfirst=True, errors='coerce')]: text that is not
    a date becomes [NaT]; a column of timestamps is returned as it is.
    [parse_datetime pd] is the reading pandas applies to the cells of the
    column it is given.  pandas may settle on a layout from the first cell
    that is not missing, so the reading belongs to one column: a statement
    about two tables takes a reading for each. *)
Definition coerce (c : celula_data) : celula_data :=
  match c with
  | NaN => NaT
  | Texto x => match parse_datetime pd x with
               | Some t => Instante t
               | None => NaT
               end
  | NaT => NaT
  | Instante t => Instante t
  end.

Definition to_datetime (s : list celula_data) : list celula_data := map coerce s.

Definition analise_demografica : M TabelasDemograficas :=
  print (Cabecalho Demografica) ;;
  atribui_coluna SEXO set_SEXO (fillna NAO_INFORMADO) ;;
  df <- le ;;
  let sexo_counts := value_counts (coluna SEXO df) in
  emite (Plot (Pizza sexo_counts)) ;;
  atribui_coluna FAIXA_ETARIA set_FAIXA_ETARIA (fillna NAO_INFORMADO) ;;
  df <- le ;;
  let faixa_etaria := value_counts (coluna FAIXA_ETARIA df) in
  let faixa_etaria := reindex ordem_faixa 0 faixa_etaria in
  emite (Plot (Barras faixa_etaria)) ;;
  atribui_coluna INSTRUCAO set_INSTRUCAO (fillna NAO_INFORMADO) ;;
  df <- le ;;
  let instrucao := head 8 (value_counts (coluna INSTRUCAO df)) in
  emite (Plot (BarrasHorizontais instrucao)) ;;
  atribui_coluna ESTADO_CIVIL set_ESTADO_CIVIL (fillna NAO_INFORMADO) ;;
  df <- le ;;
  let estado_civil := head 6 (value_counts (coluna ESTADO_CIVIL df)) in
  emite (Plot (Pizza estado_civil)) ;;
  emite (SaveFig "perfil_demografico.png") ;;
  print EstatisticasDetalhadas ;;
  df <- le ;;
  divide (com_sexo "MASCULINO" df) (List.length df) ;;
  print (Homens (com_sexo "MASCULINO" df) (List.length df)) ;;
  divide (com_sexo "FEMININO" df) (List.length df) ;;
  print (Mulheres (com_sexo "FEMININO" df) (List.length df)) ;;
  print (SexoNaoInformado (com_sexo NAO_INFORMADO df)) ;;
  ret {| sexo_counts := sexo_counts; faixa_etaria := faixa_etaria;
         instrucao := instrucao; estado_civil := estado_civil |}.

Definition analise_geografica : M Serie :=
  print (Cabecalho Geografica) ;;
  atribui_coluna UF set_UF (fillna NAO_INFORMADO) ;;
  df <- le ;;
  let uf_distribuicao := head 10 (value_counts (coluna UF df)) in
  emite (Plot (Barras uf_distribuicao)) ;;
  emite (SaveFig "distribuicao_geografica.png") ;;
  print TopEstados ;;
  para_cada (fun ic : nat * (string * nat) =>
               divide (snd (snd ic)) (List.length df) ;;
               print (Estado (fst ic) (fst (snd ic)) (snd (snd ic)) (List.length df)))
            (enumerate (head 5 uf_distribuicao)) ;;
  ret uf_distribuicao.

Definition analise_temporal : M TabelasTemporais :=
  print (Cabecalho Temporal) ;;
  atribui_coluna DATA set_DATA to_datetime ;;
  df <- le ;;
  let sugestoes_por_mes := groupby_size (map to_period_M (coluna DATA df)) in
  emite (Plot (Linha sugestoes_por_mes)) ;;
  mes_pico <- idxmax_ sugestoes_por_mes ;;
  let valor_pico := maximo sugestoes_por_mes in
  pico_index <- index_ mes_pico sugestoes_por_mes ;;
  emite (Plot (Anotacao pico_index valor_pico)) ;;
  emite (SaveFig "evolucao_temporal.png") ;;
  print (MesComMaisSugestoes mes_pico valor_pico) ;;
  ret {| sugestoes_por_mes := sugestoes_por_mes; mes_pico := mes_pico;
         valor_pico := valor_pico; pico_index := pico_index |}.

Definition analise_conteudo : M TabelasConteudo :=
  print (Cabecalho Conteudo) ;;
  df <- le ;;
  let textos := dropna (coluna SUGESTAO_TEXTO df) in
  let todos_textos := join textos in
  let palavras := findall (lower todos_textos) in
  let palavras_filtradas := filter (fun p => negb (em p stop_words)) palavras in
  let contagem := conta palavras_filtradas in
  let top_palavras := most_common 15 contagem in
  pf <- zip2 top_palavras ;;
  emite (Plot (BarrasHorizontais top_palavras)) ;;
  emite (SaveFig "palavras_frequentes.png") ;;
  print TopPalavras ;;
  para_cada (fun ip : nat * (string * nat) =>
               print (PalavraChave (fst ip) (fst (snd ip)) (snd (snd ip))))
            (enumerate (firstn 10 top_palavras)) ;;
  ret {| top_palavras := top_palavras; palavras := fst pf; frequencias := snd pf |}.

Definition resumo_final : M unit :=
  print (Cabecalho ResumoFinal) ;;
  df <- le ;;
  let total_sugestoes := List.length df in
  let participantes_masculinos := com_sexo "MASCULINO" df in
  let participantes_femininos := com_sexo "FEMININO" df in
  estado <- primeiro (value_counts (coluna UF df)) ;;
  faixa <- primeiro (value_counts (coluna FAIXA_ETARIA df)) ;;
  print (TotalAnalisadas total_sugestoes) ;;
  divide participantes_masculinos total_sugestoes ;;
  print (ParticipacaoMasculina participantes_masculinos total_sugestoes) ;;
  divide participantes_femininos total_sugestoes ;;
  print (ParticipacaoFeminina participantes_femininos total_sugestoes) ;;
  print (EstadoMaisEngajado (fst estado) (snd estado)) ;;
  print (FaixaPredominante (fst faixa)) ;;
  print (GraficoGerado "perfil_demografico.png") ;;
  print (GraficoGerado "distribuicao_geografica.png") ;;
  print (GraficoGerado "evolucao_temporal.png") ;;
  print (GraficoGerado "palavras_frequentes.png").

(** The four aggregations in the order the main block calls them. *)
Record Tabelas := {
  demografia : TabelasDemograficas;
  geografia : Serie;
  tempo : TabelasTemporais;
  conteudo : TabelasConteudo
}.

Definition agregadores : M Tabelas :=
  d <- analise_demografica ;;
  g <- analise_geografica ;;
  t <- analise_temporal ;;
  c <- analise_conteudo ;;
  ret {| demografia := d; geografia := g; tempo := t; conteudo := c |}.

(** The main block.  A load that fails leaves no table: the block prints
    one more line and ends. *)
Definition principal (a : arquivo) : option DataFrame * list evento * resultado unit :=
  let inicio := [Print Iniciando; Print Analisando] in
  match carregar_dados a with
  | (t0, Some df) =>
      match (analise_preliminar ;;
             analise_demografica ;;
             analise_geografica ;;
             analise_temporal ;;
             analise_conteudo ;;
             resumo_final ;;
             print AnaliseConcluida ;;
             print GraficosSalvos) df with
      | (df', t, r) => (Some df', inicio ++ t0 ++ t, r)
      end
  | (t0, None) =>
      (None, inicio ++ t0 ++ [Print NaoFoiPossivelCarregar], Ok tt)
  end.

(** *** The tables as functions of the table loaded

    Each analysis fills or converts the columns it reads and then computes
    its tables from them; these are the same tables written from the table
    the analysis starts with. *)

Definition preenche_demografia (df : DataFrame) : DataFrame :=
  map (fun r =>
         {| SEXO := preenchido NAO_INFORMADO (SEXO r);
            FAIXA_ETARIA := preenchido NAO_INFORMADO (FAIXA_ETARIA r);
            INSTRUCAO := preenchido NAO_INFORMADO (INSTRUCAO r);
            ESTADO_CIVIL := preenchido NAO_INFORMADO (ESTADO_CIVIL r);
            UF := UF r; DATA := DATA r; SUGESTAO_TEXTO := SUGESTAO_TEXTO r |}) df.

Definition preenche_uf (df : DataFrame) : DataFrame :=
  map (fun r => set_UF (preenchido NAO_INFORMADO (UF r)) r) df.

Definition converte_data (df : DataFrame) : DataFrame :=
  map (fun r => set_DATA (coerce (DATA r)) r) df.

Definition tabela_sexo (df : DataFrame) : Serie :=
  value_counts (fillna NAO_INFORMADO (coluna SEXO df)).

Definition tabela_faixa_etaria (df : DataFrame) : Serie :=
  reindex ordem_faixa 0 (value_counts (fillna NAO_INFORMADO (coluna FAIXA_ETARIA df))).

Definition tabela_instrucao (df : DataFrame) : Serie :=
  head 8 (value_counts (fillna NAO_INFORMADO (coluna INSTRUCAO df))).

Definition tabela_estado_civil (df : DataFrame) : Serie :=
  head 6 (value_counts (fillna NAO_INFORMADO (coluna ESTADO_CIVIL df))).

Definition tabelas_demograficas (df : DataFrame) : TabelasDemograficas :=
  {| sexo_counts := tabela_sexo df;
     faixa_etaria := tabela_faixa_etaria df;
     instrucao := tabela_instrucao df;
     estado_civil := tabela_estado_civil df |}.

Definition tabela_uf_completa (df : DataFrame) : Serie :=
  value_counts (fillna NAO_INFORMADO (coluna UF df)).

Definition tabela_uf (df : DataFrame) : Serie :=
  head 10 (tabela_uf_completa df).

Definition tabela_mensal (df : DataFrame) : SerieMensal :=
  groupby_size (map to_period_M (to_datetime (coluna DATA df))).

(** A date that is text and cannot be read. *)
Definition ilegivel (c : celula_data) : bool :=
  match c with
  | Texto x => match parse_datetime pd x with Some _ => false | None => true end
  | _ => false
  end.

(** Some row has a date once the column is converted. *)
Definition tem_data (df : DataFrame) : bool :=
  existsb (fun c => match coerce c with Instante _ => true | _ => false end)
          (coluna DATA df).

(** One aggregation, by name, with what it returns. *)
Inductive agregador := Demografico | Geografico | Cronologico | Textual.

Inductive saida :=
| SaidaDemografica (t : TabelasDemograficas)
| SaidaGeografica (t : Serie)
| SaidaTemporal (t : TabelasTemporais)
| SaidaConteudo (t : TabelasConteudo).

Definition executa (a : agregador) : M saida :=
  match a with
  | Demografico => t <- analise_demografica ;; ret (SaidaDemografica t)
  | Geografico => t <- analise_geografica ;; ret (SaidaGeografica t)
  | Cronologico => t <- analise_temporal ;; ret (SaidaTemporal t)
  | Textual => t <- analise_conteudo ;; ret (SaidaConteudo t)
  end.

(** What an aggregation leaves assigned in the table. *)
Definition escreve (a : agregador) (df : DataFrame) : DataFrame :=
  match a with
  | Demografico => preenche_demografia df
  | Geografico => preenche_uf df
  | Cronologico => converte_data df
  | Textual => df
  end.

(** The table after the aggregations of [antes] have run, first to last. *)
Definition depois (antes : list agregador) (df : DataFrame) : DataFrame :=
  fold_left (fun d a => destino (executa a d)) antes df.

(** What the four aggregations read of a table: the five categorical
    columns with their missing values filled, the dates converted, the
    suggestions. *)
Definition leitura (df : DataFrame) :=
  (fillna NAO_INFORMADO (coluna SEXO df),
   fillna NAO_INFORMADO (coluna FAIXA_ETARIA df),
   fillna NAO_INFORMADO (coluna INSTRUCAO df),
   fillna NAO_INFORMADO (coluna ESTADO_CIVIL df),
   fillna NAO_INFORMADO (coluna UF df),
   to_datetime (coluna DATA df),
   coluna SUGESTAO_TEXTO df).

(** A step reads a table through [leitura] when tables with the same
    reading give it the same value, and it leaves the reading as it was. *)
Definition leitor {A : Type} (m : M A) : Prop :=
  forall d d',
    leitura d = leitura d' ->
    valor (m d) = valor (m d') /\ leitura (destino (m d)) = leitura d.

End ComPandas.

Definition palavras_filtradas (df : DataFrame) : list string :=
  filter (fun p => negb (em p stop_words))
         (findall (lower (join (dropna (coluna SUGESTAO_TEXTO df))))).

Definition tabela_palavras (df : DataFrame) : Serie :=
  most_common 15 (conta (palavras_filtradas df)).

(** *** A reader of dates for the examples

    [DD/MM/YYYY], the layout [dayfirst=True] names, with the day checked
    against the month and the year within the range of a timestamp. *)

Definition digito (c : ascii) : option Z :=
  let n := nat_of_ascii c in
  if Latin1.entre 48 57 n then Some (Z.of_nat (n - 48)) else None.

Definition numero (cs : list ascii) : option Z :=
  fold_left (fun acc c => match acc, digito c with
                          | Some a, Some d => Some (10 * a + d)%Z
                          | _, _ => None
                          end) cs (Some 0%Z).

Definition bissexto (y : Z) : bool :=
  (((y mod 4 =? 0) && negb (y mod 100 =? 0)) || (y mod 400 =? 0))%Z.

Definition dias_do_mes (y m : Z) : Z :=
  if (m =? 2)%Z then (if bissexto y then 29%Z else 28%Z)
  else if ((m =? 4) || (m =? 6) || (m =? 9) || (m =? 11))%Z then 30%Z
  else 31%Z.

Definition parse_dmy (s : string) : option Timestamp :=
  match list_ascii_of_string s with
  | [d1; d2; b1; m1; m2; b2; y1; y2; y3; y4] =>
      if Ascii.eqb b1 "/" && Ascii.eqb b2 "/" then
        match numero [d1; d2], numero [m1; m2], numero [y1; y2; y3; y4] with
        | Some d, Some m, Some y =>
            if ((1 <=? m) && (m <=? 12) && (1 <=? d) && (d <=? dias_do_mes y m)
                && (1678 <=? y) && (y <=? 2261))%Z
            then Some {| ano := y; mes := m; dia := d |}
            else None
        | _, _, _ => None
        end
      else None
  | _ => None
  end.

(** ** Vocabulary of the statements *)

(** How many times a label occurs in a column. *)
Definition ocorrencias (k : string) (l : list string) : nat :=
  count_occ string_dec l k.

(** The labels of a list in the order each is first met. *)
Fixpoint distintos (l : list string) : list string :=
  match l with
  | [] => []
  | x :: l' => x :: filter (fun y => negb (String.eqb y x)) (distintos l')
  end.

(** The labels of a table, in its order. *)
Definition chaves (t : Serie) : list string := map fst t.

(** The count a table gives a label, 0 for a label it does not list. *)
Definition contagem_de (k : string) (t : Serie) : nat :=
  match loc k t with Some n => n | None => 0 end.

(** The rows of a table whose count is [c]. *)
Definition com_contagem (c : nat) (x : string * nat) : bool := snd x =? c.

(** A sort is stable when it keeps the rows of every count in the order it
    was given them. *)
Definition estavel (pd : Pandas) : Prop :=
  forall c t, filter (com_contagem c) (sort_values pd t) = filter (com_contagem c) t.

(** Months in chronological order, none twice. *)
Definition crescente (a b : Z * nat) : Prop := (fst a < fst b)%Z.

(** The count a monthly table gives a month, 0 for a month it does not
    list. *)
Fixpoint em_mes (k : Z) (t : SerieMensal) : nat :=
  match t with
  | [] => 0
  | (k', n) :: t' => if (k =? k')%Z then n else em_mes k t'
  end.

(** The rows of a column of periods that fall in month [k]. *)
Definition quantos (k : Z) (keys : list (option Z)) : nat :=
  List.length (filter (fun o => match o with
                                | Some k' => (k' =? k)%Z
                                | None => false
                                end) keys).

Definition soma_mensal (t : SerieMensal) : nat := list_sum (map snd t).

Definition bem_formada (t : SerieMensal) : Prop :=
  StronglySorted crescente t /\ Forall (fun x => 0 < snd x) t.

(** The rows of a table whose date, once converted, falls in month [m]. *)
Definition registos_no_mes (pd : Pandas) (m : Z) (df : DataFrame) : nat :=
  quantos m (map to_period_M (to_datetime pd (coluna DATA df))).

(** An event that is not the missing-value line of column [c]. *)
Definition sem_faltantes_de (c : string) (e : evento) : bool :=
  match e with
  | Print (Faltantes c' _ _) => negb (String.eqb c' c)
  | _ => true
  end.

(** A word as the content table may hold it: four letters of the class or
    more, in lower case, and no stop word. *)
Definition palavra_valida (w : string) : Prop :=
  4 <= String.length w
  /\ Forall (fun c => Latin1.letra c = true) (list_ascii_of_string w)
  /\ lower w = w
  /\ em w stop_words = false.

(** The names of the figures saved, in the order they were saved. *)
Fixpoint figuras (t : list evento) : list string :=
  match t with
  | [] => []
  | SaveFig arquivo :: t' => arquivo :: figuras t'
  | _ :: t' => figuras t'
  end.

(** The body of the main block's [if df is not None]. *)
Definition analises (pd : Pandas) : M unit :=
  analise_preliminar ;;
  analise_demografica pd ;;
  analise_geografica pd ;;
  analise_temporal pd ;;
  analise_conteudo ;;
  resumo_final pd ;;
  print AnaliseConcluida ;;
  print GraficosSalvos.

(** The words kept of one text. *)
Definition palavras_do_texto (t : string) : list string :=
  filter (fun p => negb (em p stop_words)) (findall (lower t)).

Definition espaco : ascii := " "%char.

Definition mesmo_agregador (a b : agregador) : bool :=
  match a, b with
  | Demografico, Demografico | Geografico, Geografico
  | Cronologico, Cronologico | Textual, Textual => true
  | _, _ => false
  end.

(** Aggregation [a] is one of those that ran. *)
Definition correu (a : agregador) (antes : list agregador) : bool :=
  existsb (mesmo_agregador a) antes.

(** A column [s] as a sequence of aggregations leaves it, when [f] is what
    aggregation [a] assigns to it. *)
Definition se_correu (a : agregador) (antes : list agregador) {A : Type}
    (f : list A -> list A) (s : list A) : list A :=
  if correu a antes then f s else s.

(** Table [t] holds the [n] most frequent labels of column [l], or all of
    them if there are fewer: a label it leaves out occurs no more often
    than any it keeps. *)
Definition mais_frequentes (n : nat) (l : list string) (t : Serie) : Prop :=
  List.length t = Nat.min n (List.length (distintos l))
  /\ forall k c k', In (k, c) t -> ~ In k' (chaves t) -> ocorrencias k' l <= c.

(** ** Small tables for the examples *)

Definition vazio : Registro :=
  {| SEXO := None; FAIXA_ETARIA := None; INSTRUCAO := None; ESTADO_CIVIL := None;
     UF := None; DATA := NaN; SUGESTAO_TEXTO := None |}.

(** Seven rows, each with a marital status of its own. *)
Definition sete_estados_civis : DataFrame :=
  map (fun e => set_ESTADO_CIVIL (Some e) vazio)
      [ "SOLTEIRO"; "CASADO"; "VIUVO"; "DIVORCIADO"; "DESQUITADO"; "SEPARADO";
        "OUTROS" ].

(** Two rows dated January and March 1986. *)
Definition janeiro_e_marco : DataFrame :=
  [ set_DATA (Texto "15/01/1986") vazio; set_DATA (Texto "20/03/1986") vazio ].

(** Two rows: one dated, with a suggestion; one whose date is not a date. *)
Definition uma_data_ilegivel : DataFrame :=
  [ {| SEXO := Some "FEMININO"; FAIXA_ETARIA := Some "30 A 39 ANOS";
       INSTRUCAO := None; ESTADO_CIVIL := None; UF := Some "SP";
       DATA := Texto "15/01/1986";
       SUGESTAO_TEXTO := Some "reforma agraria para o povo" |};
    {| SEXO := Some "MASCULINO"; FAIXA_ETARIA := None;
       INSTRUCAO := None; ESTADO_CIVIL := None; UF := Some "RJ";
       DATA := Texto "sem data";
       SUGESTAO_TEXTO := None |} ].

(** Two rows, the first from SP and the second from RJ. *)
Definition sp_e_rj : DataFrame :=
  [ set_UF (Some "SP") vazio; set_UF (Some "RJ") vazio ].

(** Three rows: a man, a woman, and one whose sex is missing. *)
Definition tres_sexos : DataFrame :=
  [ set_SEXO (Some "MASCULINO") vazio; set_SEXO (Some "FEMININO") vazio; vazio ].

(** Two suggestions that share their two long words. *)
Definition dois_textos : DataFrame :=
  [ {| SEXO := None; FAIXA_ETARIA := None; INSTRUCAO := None; ESTADO_CIVIL := None;
       UF := None; DATA := NaN; SUGESTAO_TEXTO := Some "o povo tem direito" |};
    {| SEXO := None; FAIXA_ETARIA := None; INSTRUCAO := None; ESTADO_CIVIL := None;
       UF := None; DATA := NaN; SUGESTAO_TEXTO := Some "direito e povo" |} ].

(** * Properties *)

(** ** Columns and assignments *)

Lemma atribui_map {A : Type} (c : Registro -> A) (set : A -> Registro -> Registro)
    (f : A -> A) (df : DataFrame) :
  atribui set (map f (coluna c df)) df = map (fun r => set (f (c r)) r) df.
Proof.
  induction df as [|r df IH]; simpl; [reflexivity|].
  now rewrite IH.
Qed.

Lemma coluna_map {A : Type} (c : Registro -> A) (g : Registro -> Registro) (df : DataFrame) :
  coluna c (map g df) = map (fun r => c (g r)) df.
Proof. unfold coluna. now rewrite map_map. Qed.

Lemma preenchido_idem (v : string) (c : option string) :
  preenchido v (preenchido v c) = preenchido v c.
Proof. now destruct c. Qed.

Lemma fillna_idem (v : string) (s : list (option string)) :
  fillna v (fillna v s) = fillna v s.
Proof.
  unfold fillna. rewrite map_map. apply map_ext. intros c. apply preenchido_idem.
Qed.

Lemma dropna_fillna_length (v : string) (s : list (option string)) :
  List.length (dropna (fillna v s)) = List.length s.
Proof.
  induction s as [|[x|] s IH]; simpl; auto.
Qed.

(** ** Counting *)

Lemma soma_cons (x : string * nat) (t : Serie) : soma (x :: t) = snd x + soma t.
Proof. reflexivity. Qed.

Lemma soma_regista (k : string) (t : Serie) : soma (regista k t) = S (soma t).
Proof.
  induction t as [|[k' n] t IH]; simpl; [reflexivity|].
  destruct (String.eqb k k'); rewrite !soma_cons; simpl; [lia|].
  rewrite IH. lia.
Qed.

Lemma soma_fold_regista (l : list string) (t : Serie) :
  soma (fold_left (fun t k => regista k t) l t) = List.length l + soma t.
Proof.
  revert t. induction l as [|k l IH]; intros t; simpl; [reflexivity|].
  rewrite IH, soma_regista. lia.
Qed.

Lemma soma_conta (l : list string) : soma (conta l) = List.length l.
Proof. unfold conta. rewrite soma_fold_regista. unfold soma. simpl. lia. Qed.

Lemma loc_regista (k k' : string) (t : Serie) :
  loc k (regista k' t) =
  if String.eqb k k'
  then Some (S (match loc k t with Some n => n | None => 0 end))
  else loc k t.
Proof.
  induction t as [|[k0 n] t IH]; simpl.
  - now destruct (String.eqb k k').
  - destruct (String.eqb k' k0) eqn:E0; simpl.
    + apply String.eqb_eq in E0. subst k0.
      destruct (String.eqb k k') eqn:E; reflexivity.
    + destruct (String.eqb k k0) eqn:E1.
      * destruct (String.eqb k k') eqn:E; [|reflexivity].
        apply String.eqb_eq in E, E1. subst. rewrite String.eqb_refl in E0. discriminate.
      * exact IH.
Qed.

Lemma loc_fold_regista (k : string) (l : list string) (t : Serie) :
  (forall k' n, loc k' t = Some n -> 0 < n) ->
  contagem_de k (fold_left (fun t k => regista k t) l t) = ocorrencias k l + contagem_de k t
  /\ (forall k' n, loc k' (fold_left (fun t k => regista k t) l t) = Some n -> 0 < n).
Proof.
  revert t. induction l as [|x l IH]; intros t Hpos; simpl.
  - split; [reflexivity|exact Hpos].
  - assert (Hpos' : forall k' n, loc k' (regista x t) = Some n -> 0 < n).
    { intros k' n. rewrite loc_regista. destruct (String.eqb k' x).
      - intros [= <-]. lia.
      - apply Hpos. }
    destruct (IH (regista x t) Hpos') as [IH1 IH2]. split; [|exact IH2].
    rewrite IH1. unfold contagem_de. rewrite loc_regista.
    unfold ocorrencias. simpl.
    destruct (string_dec x k) as [->|Hne].
    + rewrite String.eqb_refl. lia.
    + destruct (String.eqb k x) eqn:E.
      * apply String.eqb_eq in E. congruence.
      * lia.
Qed.

Lemma loc_conta (k : string) (l : list string) :
  loc k (conta l) = if ocorrencias k l =? 0 then None else Some (ocorrencias k l).
Proof.
  destruct (loc_fold_regista k l []) as [H1 H2]; [intros ? ? [=]|].
  fold (conta l) in H1, H2. unfold contagem_de in H1. simpl in H1.
  rewrite Nat.add_0_r in H1.
  destruct (loc k (conta l)) as [n|] eqn:E.
  - apply H2 in E. subst n. destruct (ocorrencias k l); [lia|reflexivity].
  - now rewrite <- H1.
Qed.

Lemma chaves_regista (k : string) (t : Serie) :
  chaves (regista k t) = if em k (chaves t) then chaves t else chaves t ++ [k].
Proof.
  unfold chaves, em. induction t as [|[k' n] t IH]; simpl; [reflexivity|].
  destruct (String.eqb k k') eqn:E; simpl; [reflexivity|].
  rewrite IH. now destruct (existsb (String.eqb k) (map fst t)).
Qed.

Lemma NoDup_chaves_regista (k : string) (t : Serie) :
  NoDup (chaves t) -> NoDup (chaves (regista k t)).
Proof.
  intros H. rewrite chaves_regista. destruct (em k (chaves t)) eqn:E; [exact H|].
  apply NoDup_app_remove_l with (l := []). simpl.
  rewrite <- (rev_involutive (chaves t ++ [k])). apply NoDup_rev.
  rewrite rev_app_distr. simpl. constructor.
  - rewrite <- in_rev. intros Hin. unfold em in E.
    assert (existsb (String.eqb k) (chaves t) = true); [|congruence].
    apply existsb_exists. exists k. split; [exact Hin|apply String.eqb_refl].
  - now apply NoDup_rev.
Qed.

Lemma NoDup_chaves_conta (l : list string) : NoDup (chaves (conta l)).
Proof.
  unfold conta.
  assert (H : forall t, NoDup (chaves t) ->
                        NoDup (chaves (fold_left (fun t k => regista k t) l t))).
  { induction l as [|k l IH]; intros t Ht; simpl; [exact Ht|].
    apply IH. now apply NoDup_chaves_regista. }
  apply H. constructor.
Qed.

Lemma loc_In (k : string) (n : nat) (t : Serie) :
  NoDup (chaves t) -> (loc k t = Some n <-> In (k, n) t).
Proof.
  unfold chaves. induction t as [|[k' m] t IH]; simpl; intros Hnd.
  - split; [discriminate|tauto].
  - inversion Hnd as [|? ? Hnot Hnd']; subst.
    destruct (String.eqb k k') eqn:E.
    + apply String.eqb_eq in E. subst k'. split.
      * intros [= ->]. now left.
      * intros [[= ->]|Hin]; [reflexivity|].
        exfalso. apply Hnot. apply in_map_iff. now exists (k, n).
    + rewrite (IH Hnd'). split; [tauto|].
      intros [[= <- _]|Hin]; [|exact Hin].
      rewrite String.eqb_refl in E. discriminate.
Qed.

Lemma loc_None (k : string) (t : Serie) : loc k t = None <-> ~ In k (chaves t).
Proof.
  unfold chaves. induction t as [|[k' m] t IH]; simpl; [tauto|].
  destruct (String.eqb k k') eqn:E.
  - apply String.eqb_eq in E. split; [discriminate|]. intros H. exfalso. apply H. now left.
  - rewrite IH. apply String.eqb_neq in E. split; [intros H [H'|H']; congruence|tauto].
Qed.

Lemma In_conta (k : string) (n : nat) (l : list string) :
  In (k, n) (conta l) <-> n = ocorrencias k l /\ 0 < n.
Proof.
  rewrite <- (loc_In k n (conta l) (NoDup_chaves_conta l)), loc_conta.
  destruct (ocorrencias k l) as [|m]; simpl.
  - split; [discriminate|lia].
  - split; [intros [= <-]; lia|intros [-> _]; reflexivity].
Qed.

Lemma filter_filter_comm {A : Type} (f g : A -> bool) (l : list A) :
  filter f (filter g l) = filter (fun x => g x && f x) l.
Proof.
  induction l as [|x l IH]; simpl; [reflexivity|].
  destruct (g x); simpl; [destruct (f x)|]; now rewrite IH.
Qed.

Lemma em_app (k : string) (l1 l2 : list string) : em k (l1 ++ l2) = em k l1 || em k l2.
Proof. unfold em. apply existsb_app. Qed.

Lemma em_In (k : string) (l : list string) : em k l = true <-> In k l.
Proof.
  unfold em. rewrite existsb_exists. split.
  - intros [x [Hin E]]. apply String.eqb_eq in E. now subst.
  - intros Hin. exists k. split; [exact Hin|apply String.eqb_refl].
Qed.

Lemma chaves_fold_regista (l : list string) (t : Serie) :
  chaves (fold_left (fun t k => regista k t) l t) =
  chaves t ++ filter (fun k => negb (em k (chaves t))) (distintos l).
Proof.
  revert t. induction l as [|x l IH]; intros t; simpl.
  - now rewrite app_nil_r.
  - rewrite IH, chaves_regista. destruct (em x (chaves t)) eqn:E; simpl.
    + f_equal. rewrite filter_filter_comm. apply filter_ext_in. intros y _.
      destruct (String.eqb y x) eqn:Eyx; simpl; [|reflexivity].
      apply String.eqb_eq in Eyx. subst y. now rewrite E.
    + rewrite <- app_assoc. simpl. f_equal. f_equal.
      rewrite filter_filter_comm. apply filter_ext. intros y.
      rewrite em_app. unfold em at 2. simpl. rewrite orb_false_r.
      rewrite negb_orb. apply andb_comm.
Qed.

Lemma chaves_conta (l : list string) : chaves (conta l) = distintos l.
Proof.
  unfold conta. rewrite chaves_fold_regista. simpl.
  induction (distintos l) as [|x d IH]; simpl; [reflexivity|]. now rewrite IH.
Qed.

(** ** Sorting *)

Lemma soma_perm (t u : Serie) : Permutation t u -> soma t = soma u.
Proof.
  unfold soma. induction 1; simpl; lia.
Qed.

Lemma insere_perm (x : string * nat) (t : Serie) : Permutation (insere x t) (x :: t).
Proof.
  induction t as [|y t IH]; simpl; [reflexivity|].
  destruct (snd y <=? snd x); [reflexivity|].
  rewrite IH. apply perm_swap.
Qed.

Lemma ordena_perm (t : Serie) : Permutation (ordena t) t.
Proof.
  induction t as [|x t IH]; simpl; [reflexivity|].
  rewrite insere_perm. now constructor.
Qed.

Lemma insere_sorted (x : string * nat) (t : Serie) :
  Sorted decrescente t -> Sorted decrescente (insere x t).
Proof.
  induction t as [|y t IH]; simpl; intros Hs.
  - repeat constructor.
  - destruct (snd y <=? snd x) eqn:E.
    + constructor; [exact Hs|]. constructor. unfold decrescente.
      now apply Nat.leb_le.
    + apply Nat.leb_gt in E. inversion Hs as [|? ? Hs' Hhd]; subst.
      constructor; [now apply IH|].
      destruct t as [|z t]; simpl.
      * constructor. unfold decrescente. lia.
      * destruct (snd z <=? snd x); constructor; unfold decrescente.
        -- lia.
        -- now inversion Hhd.
Qed.

Lemma ordena_sorted (t : Serie) : Sorted decrescente (ordena t).
Proof.
  induction t as [|x t IH]; simpl; [constructor|]. now apply insere_sorted.
Qed.

(** Rows with equal counts keep their order: the sort is stable. *)
Lemma insere_estavel (c : nat) (x : string * nat) (t : Serie) :
  Sorted decrescente t ->
  filter (com_contagem c) (insere x t) = filter (com_contagem c) (x :: t).
Proof.
  induction t as [|y t IH]; intros Hs; [reflexivity|].
  cbn [insere]. destruct (snd y <=? snd x) eqn:E; [reflexivity|].
  apply Nat.leb_gt in E. inversion Hs; subst.
  cbn [filter]. rewrite IH by assumption. cbn [filter].
  unfold com_contagem.
  destruct (snd x =? c) eqn:Ex, (snd y =? c) eqn:Ey; try reflexivity.
  apply Nat.eqb_eq in Ex, Ey. lia.
Qed.

Lemma ordena_estavel (c : nat) (t : Serie) :
  filter (com_contagem c) (ordena t) = filter (com_contagem c) t.
Proof.
  induction t as [|x t IH]; [reflexivity|].
  cbn [ordena fold_right]. fold (ordena t).
  rewrite insere_estavel by apply ordena_sorted.
  cbn [filter]. now rewrite IH.
Qed.

(** An implementation of what the script takes from pandas: a sort that
    keeps rows with equal counts in the order first met, and the reading of
    dates of [parse_dmy]. *)
Definition pandas_estavel : Pandas :=
  {| sort_values := ordena;
     sort_values_perm := ordena_perm;
     sort_values_desc := ordena_sorted;
     parse_datetime := parse_dmy |}.

Lemma pandas_estavel_estavel : estavel pandas_estavel.
Proof. intros c t. apply ordena_estavel. Qed.

(** ** Tables sorted by pandas *)

Lemma decrescente_trans : Relations_1.Transitive decrescente.
Proof. intros x y z. unfold decrescente. lia. Qed.

Lemma firstn_incl {A : Type} (n : nat) (l : list A) : incl (firstn n l) l.
Proof.
  revert n. induction l as [|x l IH]; intros [|n] y; simpl; try tauto.
  intros [->|H]; [now left|right; now apply (IH n)].
Qed.

Lemma firstn_sorted (n : nat) (t : Serie) :
  Sorted decrescente t -> Sorted decrescente (firstn n t).
Proof.
  intros Hs. apply Sorted_StronglySorted in Hs; [|exact decrescente_trans].
  apply StronglySorted_Sorted. revert n.
  induction Hs as [|x t Hs IH Hall]; intros [|n]; simpl; try constructor.
  - apply IH.
  - rewrite Forall_forall in *. intros y Hy. apply Hall.
    now apply (firstn_incl n t).
Qed.

Lemma soma_firstn (n : nat) (t : Serie) : soma (firstn n t) <= soma t.
Proof.
  revert n. induction t as [|x t IH]; intros [|n]; simpl; try (unfold soma; simpl; lia).
  rewrite !soma_cons. specialize (IH n). lia.
Qed.

Lemma soma_app (t u : Serie) : soma (t ++ u) = soma t + soma u.
Proof. unfold soma. now rewrite map_app, list_sum_app. Qed.

(** ** What each analysis leaves and returns *)

Ltac passos :=
  cbv [bind print emite atribui_coluna le ret divide raise destino valor eventos
       fst snd zip2 primeiro idxmax_ index_].

Ltac colunas :=
  unfold fillna, to_datetime;
  repeat (rewrite ?atribui_map, ?coluna_map, ?map_map; cbn [SEXO FAIXA_ETARIA
    INSTRUCAO ESTADO_CIVIL UF DATA SUGESTAO_TEXTO set_SEXO set_FAIXA_ETARIA
    set_INSTRUCAO set_ESTADO_CIVIL set_UF set_DATA]).

Section Passos.

Variable pd : Pandas.

Lemma analise_demografica_destino (df : DataFrame) :
  destino (analise_demografica pd df) = preenche_demografia df.
Proof.
  unfold analise_demografica. passos. colunas.
  rewrite length_map.
  destruct df as [|r df]; [reflexivity|]. reflexivity.
Qed.

Lemma analise_demografica_valor (df : DataFrame) :
  valor (analise_demografica pd df) =
  match df with
  | [] => Raise ZeroDivisionError
  | _ :: _ => Ok (tabelas_demograficas pd df)
  end.
Proof.
  unfold analise_demografica. passos. colunas.
  rewrite length_map.
  destruct df as [|r df]; [reflexivity|].
  cbn [List.length Nat.eqb].
  unfold tabelas_demograficas, tabela_sexo, tabela_faixa_etaria, tabela_instrucao, tabela_estado_civil.
  unfold fillna, coluna. rewrite !map_map. reflexivity.
Qed.

Lemma analise_demografica_desenhos (df : DataFrame) :
  exists depois,
    eventos (analise_demografica pd df) =
    [ Print (Cabecalho Demografica);
      Plot (Pizza (tabela_sexo pd df));
      Plot (Barras (tabela_faixa_etaria pd df));
      Plot (BarrasHorizontais (tabela_instrucao pd df));
      Plot (Pizza (tabela_estado_civil pd df));
      SaveFig "perfil_demografico.png";
      Print EstatisticasDetalhadas ] ++ depois.
Proof.
  unfold analise_demografica. passos. colunas.
  rewrite length_map.
  unfold tabela_sexo, tabela_faixa_etaria, tabela_instrucao, tabela_estado_civil.
  unfold fillna, coluna. rewrite !map_map.
  destruct df as [|r df]; cbn [List.length Nat.eqb app]; eexists; reflexivity.
Qed.

Lemma para_cada_ok {A : Type} (f : A -> M unit) (l : list A) (df : DataFrame) :
  (forall x, In x l -> exists t, f x df = (df, t, Ok tt)) ->
  exists t, para_cada f l df = (df, t, Ok tt).
Proof.
  induction l as [|x l IH]; intros H; cbn [para_cada].
  - now exists [].
  - destruct (H x (or_introl eq_refl)) as [t1 E1].
    destruct IH as [t2 E2]; [intros y Hy; apply H; now right|].
    unfold bind. rewrite E1, E2. now eexists.
Qed.

Lemma para_cada_destino {A : Type} (f : A -> M unit) (l : list A) (df : DataFrame) :
  (forall x d, destino (f x d) = d) -> destino (para_cada f l df) = df.
Proof.
  intros H. induction l as [|x l IH]; cbn [para_cada]; [reflexivity|].
  unfold bind. specialize (H x df). unfold destino in *.
  destruct (f x df) as [[d1 t1] [[]|e]]; cbn [fst] in *; subst d1; [|reflexivity].
  destruct (para_cada f l df) as [[d2 t2] r]. exact IH.
Qed.

Lemma value_counts_nil : value_counts pd [] = [].
Proof.
  unfold value_counts. apply Permutation_nil. symmetry. apply sort_values_perm.
Qed.

Lemma analise_geografica_destino (df : DataFrame) :
  destino (analise_geografica pd df) = preenche_uf df.
Proof.
  unfold analise_geografica. passos. colunas.
  match goal with |- context [para_cada ?f ?l ?d] =>
    pose proof (para_cada_destino f l d) as H;
    destruct (para_cada f l d) as [[d' t'] [[]|e]] end;
    unfold destino in H; cbn [fst] in *; rewrite H; try reflexivity;
    intros [i [uf n]] d; passos; destruct (_ =? 0); reflexivity.
Qed.

Lemma analise_geografica_valor (df : DataFrame) :
  valor (analise_geografica pd df) = Ok (tabela_uf pd df).
Proof.
  unfold analise_geografica. passos. colunas.
  match goal with |- context [para_cada ?f ?l ?d] =>
    destruct (para_cada_ok f l d) as [t E] end.
  - intros [i [uf n]] Hin. cbn [fst snd]. passos.
    destruct df as [|r df].
    + exfalso. cbn [map] in Hin. unfold coluna in Hin. cbn [map] in Hin.
      rewrite value_counts_nil in Hin. exact Hin.
    + cbn [map List.length Nat.eqb]. now eexists.
  - rewrite E. unfold tabela_uf, tabela_uf_completa, fillna, coluna.
    rewrite !map_map. reflexivity.
Qed.

Lemma analise_temporal_destino (df : DataFrame) :
  destino (analise_temporal pd df) = converte_data pd df.
Proof.
  unfold analise_temporal. passos. colunas.
  match goal with |- context [idxmax ?t] => destruct (idxmax t) as [k|] end;
    [|reflexivity].
  match goal with |- context [index_of ?k ?t] => destruct (index_of k t) end;
    reflexivity.
Qed.

Lemma analise_temporal_valor (df : DataFrame) :
  valor (analise_temporal pd df) =
  match idxmax (tabela_mensal pd df) with
  | None => Raise ValueError
  | Some k =>
      match index_of k (tabela_mensal pd df) with
      | None => Raise ValueError
      | Some i => Ok {| sugestoes_por_mes := tabela_mensal pd df;
                        mes_pico := k;
                        valor_pico := maximo (tabela_mensal pd df);
                        pico_index := i |}
      end
  end.
Proof.
  unfold analise_temporal. passos. colunas.
  unfold tabela_mensal, to_datetime, coluna. rewrite !map_map.
  match goal with |- context [idxmax ?t] => destruct (idxmax t) as [k|] end;
    [|reflexivity].
  match goal with |- context [index_of ?k ?t] => destruct (index_of k t) end;
    reflexivity.
Qed.

Lemma analise_conteudo_destino (df : DataFrame) :
  destino (analise_conteudo df) = df.
Proof.
  unfold analise_conteudo. passos.
  fold (palavras_filtradas df). fold (tabela_palavras df).
  destruct (tabela_palavras df) as [|x t]; [reflexivity|].
  match goal with |- context [para_cada ?f ?l ?d] =>
    pose proof (para_cada_destino f l d) as H;
    destruct (para_cada f l d) as [[d' t'] [[]|e]] end;
    unfold destino in H; cbn [fst] in *; rewrite H; try reflexivity;
    intros [i [w n]] d; reflexivity.
Qed.

Lemma analise_conteudo_valor (df : DataFrame) :
  valor (analise_conteudo df) =
  match tabela_palavras df with
  | [] => Raise ValueError
  | _ :: _ => Ok {| top_palavras := tabela_palavras df;
                    palavras := map fst (tabela_palavras df);
                    frequencias := map snd (tabela_palavras df) |}
  end.
Proof.
  unfold analise_conteudo. passos.
  fold (palavras_filtradas df). fold (tabela_palavras df).
  destruct (tabela_palavras df) as [|x t]; [reflexivity|].
  match goal with |- context [para_cada ?f ?l ?d] =>
    destruct (para_cada_ok f l d) as [t0 E0] end.
  - intros [i [w n]] _. passos. now eexists.
  - rewrite E0. reflexivity.
Qed.

End Passos.

(** ** Counts under [value_counts] *)

Section Contagens.

Variable pd : Pandas.

Lemma value_counts_perm (s : list (option string)) :
  Permutation (value_counts pd s) (conta (dropna s)).
Proof. apply sort_values_perm. Qed.

Lemma value_counts_In (k : string) (n : nat) (s : list (option string)) :
  In (k, n) (value_counts pd s) <-> n = ocorrencias k (dropna s) /\ 0 < n.
Proof.
  rewrite <- In_conta. split; apply Permutation_in;
    [|symmetry]; apply value_counts_perm.
Qed.

Lemma value_counts_NoDup (s : list (option string)) :
  NoDup (chaves (value_counts pd s)).
Proof.
  unfold chaves. eapply Permutation_NoDup.
  - symmetry. apply Permutation_map. apply value_counts_perm.
  - apply NoDup_chaves_conta.
Qed.

Lemma value_counts_loc (k : string) (s : list (option string)) :
  loc k (value_counts pd s) = loc k (conta (dropna s)).
Proof.
  destruct (loc k (conta (dropna s))) as [n|] eqn:E.
  - apply loc_In; [apply value_counts_NoDup|].
    apply loc_In in E; [|apply NoDup_chaves_conta].
    eapply Permutation_in; [symmetry; apply value_counts_perm|exact E].
  - apply loc_None. rewrite loc_None in E. intros H. apply E.
    unfold chaves in *. eapply Permutation_in; [|exact H].
    apply Permutation_map. apply value_counts_perm.
Qed.

Lemma value_counts_soma (s : list (option string)) :
  soma (value_counts pd s) = List.length (dropna s).
Proof.
  rewrite (soma_perm _ _ (value_counts_perm s)). apply soma_conta.
Qed.

Lemma value_counts_length (s : list (option string)) :
  List.length (value_counts pd s) = List.length (distintos (dropna s)).
Proof.
  rewrite (Permutation_length (value_counts_perm s)).
  rewrite <- chaves_conta. unfold chaves. now rewrite length_map.
Qed.

Lemma value_counts_positivo (s : list (option string)) :
  Forall (fun x => 0 < snd x) (value_counts pd s).
Proof.
  apply Forall_forall. intros [k n] H. apply value_counts_In in H. simpl. tauto.
Qed.

End Contagens.

Lemma soma_positiva (t : Serie) :
  Forall (fun x => 0 < snd x) t -> t <> [] -> 0 < soma t.
Proof.
  intros H Hne. destruct t as [|x t]; [congruence|].
  inversion H; subst. rewrite soma_cons. lia.
Qed.

(** The first [n] rows of a table of positive counts add up to the whole
    exactly when the table has no more than [n] rows. *)
Lemma soma_head (n : nat) (t : Serie) :
  Forall (fun x => 0 < snd x) t ->
  soma (head n t) <= soma t /\ (soma (head n t) = soma t <-> List.length t <= n).
Proof.
  intros Hpos. unfold head. split; [apply soma_firstn|].
  rewrite <- (firstn_skipn n t) at 2. rewrite soma_app. split.
  - intros H. destruct (skipn n t) as [|x u] eqn:E.
    + destruct (Nat.le_gt_cases (List.length t) n) as [Hle|Hgt]; [exact Hle|].
      assert (Hl : List.length (skipn n t) = List.length t - n) by apply length_skipn.
      rewrite E in Hl. simpl in Hl. lia.
    + assert (0 < soma (x :: u)).
      { apply soma_positiva; [|discriminate]. rewrite <- E.
        apply Forall_forall. intros y Hy. rewrite Forall_forall in Hpos.
        apply Hpos. rewrite <- (firstn_skipn n t). apply in_or_app. now right. }
      lia.
  - intros Hle. rewrite skipn_all2 by exact Hle. change (soma []) with 0. lia.
Qed.

Lemma soma_reindex (labels : list string) (t : Serie) :
  soma (reindex labels 0 t) = list_sum (map (fun l => contagem_de l t) labels).
Proof.
  unfold soma, reindex, contagem_de. rewrite map_map. reflexivity.
Qed.

Lemma indicador_soma (x : string) (labels : list string) :
  NoDup labels ->
  list_sum (map (fun l => if string_dec x l then 1 else 0) labels) =
  if em x labels then 1 else 0.
Proof.
  unfold em. induction labels as [|l labels IH]; simpl; intros Hnd; [reflexivity|].
  inversion Hnd as [|? ? Hnot Hnd']; subst. rewrite (IH Hnd').
  destruct (string_dec x l) as [->|Hne].
  - rewrite String.eqb_refl. simpl.
    destruct (existsb (String.eqb l) labels) eqn:E; [|reflexivity].
    exfalso. apply Hnot. now apply em_In.
  - apply String.eqb_neq in Hne. rewrite Hne. reflexivity.
Qed.

Lemma ocorrencias_soma (labels l : list string) :
  NoDup labels ->
  list_sum (map (fun k => ocorrencias k l) labels) =
  List.length (filter (fun x => em x labels) l).
Proof.
  intros Hnd. induction l as [|x l IH]; simpl.
  - clear. induction labels as [|k labels IHl]; [reflexivity|exact IHl].
  - transitivity (list_sum (map (fun k => if string_dec x k then 1 else 0) labels)
                  + list_sum (map (fun k => ocorrencias k l) labels)).
    + clear. induction labels as [|k labels IHl]; simpl; [reflexivity|].
      rewrite IHl. unfold ocorrencias. cbn [count_occ].
      destruct (string_dec x k); lia.
    + rewrite indicador_soma by exact Hnd. rewrite IH.
      destruct (em x labels); simpl; lia.
Qed.

Lemma ordem_faixa_NoDup : NoDup ordem_faixa.
Proof.
  unfold ordem_faixa.
  repeat (constructor; [intros H; simpl in H;
    repeat (destruct H as [H|H]; [discriminate H|]); exact H|]).
  constructor.
Qed.

Lemma contagem_de_conta (k : string) (l : list string) :
  contagem_de k (conta l) = ocorrencias k l.
Proof.
  unfold contagem_de. rewrite loc_conta. now destruct (ocorrencias k l).
Qed.

Lemma filter_length_all {A : Type} (f : A -> bool) (l : list A) :
  List.length (filter f l) = List.length l <-> (forall x, In x l -> f x = true).
Proof.
  induction l as [|x l IH]; simpl; [tauto|].
  pose proof (filter_length_le f l) as Hle.
  destruct (f x) eqn:E; simpl.
  - split.
    + intros H y [<-|Hy]; [exact E|]. apply IH; [lia|exact Hy].
    + intros H. f_equal. apply IH. intros y Hy. apply H. now right.
  - split; [lia|]. intros H. specialize (H x (or_introl eq_refl)). congruence.
Qed.

(** ** Monthly tables *)

Lemma crescente_trans : Relations_1.Transitive crescente.
Proof. intros x y z. unfold crescente. lia. Qed.

Lemma em_mes_antes (k : Z) (t : SerieMensal) :
  Forall (fun y => (k < fst y)%Z) t -> em_mes k t = 0.
Proof.
  induction 1 as [|[k' n] t Hk _ IH]; simpl; [reflexivity|].
  simpl in Hk. destruct (Z.eqb_spec k k'); [lia|exact IH].
Qed.

Lemma regista_mes_chaves (k : Z) (t : SerieMensal) (P : Z -> Prop) :
  P k -> Forall (fun y => P (fst y)) t -> Forall (fun y => P (fst y)) (regista_mes k t).
Proof.
  intros Hk. induction 1 as [|[k' n] t Hx Ht IH]; simpl.
  - now repeat constructor.
  - destruct (k <? k')%Z; [now repeat constructor|].
    destruct (k =? k')%Z; now constructor.
Qed.

Lemma regista_mes_bem_formada (k : Z) (t : SerieMensal) :
  bem_formada t -> bem_formada (regista_mes k t).
Proof.
  intros [Hs Hp]. split.
  - induction Hs as [|[k' n] t Hs IH Hall]; simpl.
    + repeat constructor.
    + inversion Hp as [|? ? Hn Hp']; subst.
      destruct (Z.ltb_spec k k') as [Hlt|Hge].
      * constructor; [now constructor|]. constructor; [exact Hlt|].
        eapply Forall_impl; [|exact Hall]. unfold crescente. simpl. intros; lia.
      * destruct (Z.eqb_spec k k') as [->|Hne].
        -- now constructor.
        -- constructor; [now apply IH|].
           apply (regista_mes_chaves k t (fun z => (k' < z)%Z)); [lia|exact Hall].
  - induction Hp as [|[k' n] t Hn Hp IH]; simpl.
    + repeat constructor.
    + destruct (k <? k')%Z; [repeat constructor; simpl; auto; lia|].
      destruct (k =? k')%Z; constructor; simpl in *; auto; try lia.
      apply IH. now inversion Hs.
Qed.

Lemma em_mes_regista (k k0 : Z) (t : SerieMensal) :
  StronglySorted crescente t ->
  em_mes k0 (regista_mes k t) = if (k0 =? k)%Z then S (em_mes k t) else em_mes k0 t.
Proof.
  induction 1 as [|[k' n] t Hs IH Hall]; simpl.
  - now destruct (k0 =? k)%Z.
  - destruct (Z.ltb_spec k k') as [Hlt|Hge]; simpl.
    + destruct (Z.eqb_spec k0 k) as [->|Hne]; [|reflexivity].
      destruct (Z.eqb_spec k k'); [lia|].
      rewrite em_mes_antes; [reflexivity|].
      eapply Forall_impl; [|exact Hall]. unfold crescente. simpl. intros; lia.
    + destruct (Z.eqb_spec k k') as [->|Hne]; simpl.
      * destruct (Z.eqb_spec k0 k'); reflexivity.
      * destruct (Z.eqb_spec k0 k'), (Z.eqb_spec k0 k); try lia; try reflexivity; exact IH.
Qed.

Lemma groupby_size_bem_formada (keys : list (option Z)) : bem_formada (groupby_size keys).
Proof.
  induction keys as [|[k|] keys IH]; simpl.
  - split; constructor.
  - now apply regista_mes_bem_formada.
  - exact IH.
Qed.

Lemma em_mes_groupby_size (k : Z) (keys : list (option Z)) :
  em_mes k (groupby_size keys) = quantos k keys.
Proof.
  unfold quantos. induction keys as [|[k'|] keys IH]; simpl; [reflexivity| |exact IH].
  rewrite em_mes_regista by apply groupby_size_bem_formada.
  rewrite (Z.eqb_sym k' k). destruct (k =? k')%Z eqn:E; simpl; [|exact IH].
  apply Z.eqb_eq in E. subst k'. now rewrite IH.
Qed.

Lemma In_em_mes (k : Z) (n : nat) (t : SerieMensal) :
  bem_formada t -> (In (k, n) t <-> em_mes k t = n /\ 0 < n).
Proof.
  intros [Hs Hp]. induction Hs as [|[k' m] t Hs IH Hall]; simpl.
  - split; [tauto|lia].
  - inversion Hp as [|? ? Hm Hp']; subst. simpl in Hm.
    destruct (Z.eqb_spec k k') as [->|Hne].
    + split.
      * intros [[= ->]|Hin]; [tauto|].
        rewrite Forall_forall in Hall. apply Hall in Hin.
        unfold crescente in Hin. simpl in Hin. lia.
      * intros [-> _]. now left.
    + rewrite <- (IH Hp'). split; [|tauto].
      intros [[= -> _]|Hin]; [congruence|exact Hin].
Qed.

Lemma In_groupby_size (k : Z) (n : nat) (keys : list (option Z)) :
  In (k, n) (groupby_size keys) <-> n = quantos k keys /\ 0 < n.
Proof.
  rewrite (In_em_mes k n _ (groupby_size_bem_formada keys)), em_mes_groupby_size.
  split; intros [H1 H2]; split; congruence.
Qed.

Lemma soma_mensal_regista (k : Z) (t : SerieMensal) :
  soma_mensal (regista_mes k t) = S (soma_mensal t).
Proof.
  unfold soma_mensal. induction t as [|[k' n] t IH]; simpl; [reflexivity|].
  destruct (k <? k')%Z; simpl; [reflexivity|].
  destruct (k =? k')%Z; simpl; [reflexivity|]. rewrite IH. lia.
Qed.

Lemma soma_mensal_groupby_size (keys : list (option Z)) :
  soma_mensal (groupby_size keys) =
  List.length (filter (fun o => match o with Some _ => true | None => false end) keys).
Proof.
  induction keys as [|[k|] keys IH]; simpl; [reflexivity| |exact IH].
  now rewrite soma_mensal_regista, IH.
Qed.

Lemma groupby_size_nil (keys : list (option Z)) :
  groupby_size keys = [] <-> Forall (fun o => o = None) keys.
Proof.
  split.
  - intros H. pose proof (soma_mensal_groupby_size keys) as Hs. rewrite H in Hs.
    unfold soma_mensal in Hs. simpl in Hs.
    induction keys as [|[k|] keys IH]; [constructor|discriminate Hs|].
    constructor; [reflexivity|]. apply IH; [|exact Hs].
    simpl in H. exact H.
  - induction 1 as [|o keys Ho _ IH]; [reflexivity|]. subst o. exact IH.
Qed.

(** *** The peak *)

Lemma linha_maxima_nil (t : SerieMensal) : linha_maxima t = None <-> t = [].
Proof.
  destruct t as [|x t]; simpl; [tauto|].
  destruct (linha_maxima t) as [y|]; [destruct (snd y <=? snd x)|]; split; discriminate.
Qed.

(** The row [linha_maxima] picks splits the table: the rows before it are
    strictly smaller, the rows after it are not larger. *)
Lemma linha_maxima_primeira (t : SerieMensal) (x : Z * nat) :
  linha_maxima t = Some x ->
  exists antes depois,
    t = antes ++ x :: depois
    /\ Forall (fun y => snd y < snd x) antes
    /\ Forall (fun y => snd y <= snd x) depois.
Proof.
  revert x. induction t as [|a t IH]; intros x; simpl; [discriminate|].
  destruct (linha_maxima t) as [y|] eqn:E.
  - destruct (IH y eq_refl) as (l1 & l2 & Ht & H1 & H2).
    destruct (Nat.leb_spec (snd y) (snd a)) as [Hle|Hgt]; intros [= <-].
    + exists [], t. split; [reflexivity|]. split; [constructor|].
      subst t. apply Forall_app. split.
      * eapply Forall_impl; [|exact H1]. simpl. intros; lia.
      * constructor; [exact Hle|]. eapply Forall_impl; [|exact H2]. simpl. intros; lia.
    + exists (a :: l1), l2. subst t. split; [reflexivity|]. split; [|exact H2].
      now constructor.
  - intros [= <-]. apply linha_maxima_nil in E. subst t.
    exists [], []. repeat split; constructor.
Qed.

Lemma list_max_limite (l : list nat) (m : nat) :
  In m l -> Forall (fun n => n <= m) l -> list_max l = m.
Proof.
  intros Hin Hall. apply Nat.le_antisymm.
  - apply list_max_le. exact Hall.
  - pose proof (proj1 (list_max_le l (list_max l)) (Nat.le_refl _)) as H.
    rewrite Forall_forall in H. now apply H.
Qed.

Lemma linha_maxima_maximo (t : SerieMensal) (x : Z * nat) :
  linha_maxima t = Some x -> maximo t = snd x.
Proof.
  intros H. destruct (linha_maxima_primeira t x H) as (l1 & l2 & -> & H1 & H2).
  unfold maximo. apply list_max_limite.
  - apply in_map. apply in_or_app. right. now left.
  - apply Forall_map. apply Forall_app. split.
    + eapply Forall_impl; [|exact H1]. simpl. intros; lia.
    + constructor; [lia|exact H2].
Qed.

Lemma index_of_app (k : Z) (l1 l2 : SerieMensal) (n : nat) :
  Forall (fun y => fst y <> k) l1 ->
  index_of k (l1 ++ (k, n) :: l2) = Some (List.length l1).
Proof.
  induction 1 as [|[k' m] l1 Hk _ IH]; simpl.
  - now rewrite Z.eqb_refl.
  - simpl in Hk. destruct (Z.eqb_spec k k'); [congruence|]. now rewrite IH.
Qed.

Lemma StronglySorted_app_cons (l1 l2 : SerieMensal) (x : Z * nat) :
  StronglySorted crescente (l1 ++ x :: l2) ->
  Forall (fun y => (fst y < fst x)%Z) l1 /\ Forall (fun y => (fst x < fst y)%Z) l2.
Proof.
  induction l1 as [|a l1 IH]; simpl; intros H; inversion H as [|? ? Hs Hall]; subst.
  - split; [constructor|exact Hall].
  - destruct (IH Hs) as [H1 H2]. split; [|exact H2]. constructor; [|exact H1].
    rewrite Forall_forall in Hall. apply (Hall x). apply in_or_app. right. now left.
Qed.

(** The peak of a monthly table that has a row: where it stands, and how
    the rows before and after it compare with it. *)
Lemma pico_da_tabela (t : SerieMensal) :
  StronglySorted crescente t -> t <> [] ->
  exists k v l1 l2,
    linha_maxima t = Some (k, v)
    /\ t = l1 ++ (k, v) :: l2
    /\ Forall (fun y => snd y < v) l1
    /\ Forall (fun y => snd y <= v) l2
    /\ index_of k t = Some (List.length l1)
    /\ Forall (fun y => (fst y < k)%Z) l1
    /\ Forall (fun y => (k < fst y)%Z) l2.
Proof.
  intros Hs Hne.
  destruct (linha_maxima t) as [[k v]|] eqn:E;
    [|apply linha_maxima_nil in E; contradiction].
  destruct (linha_maxima_primeira _ _ E) as (l1 & l2 & Ht & H1 & H2).
  simpl in H1, H2.
  assert (Hk : Forall (fun y => (fst y < k)%Z) l1 /\ Forall (fun y => (k < fst y)%Z) l2).
  { rewrite Ht in Hs. apply (StronglySorted_app_cons l1 l2 (k, v) Hs). }
  destruct Hk as [Hk1 Hk2].
  exists k, v, l1, l2. repeat split; try assumption.
  rewrite Ht. apply index_of_app. eapply Forall_impl; [|exact Hk1].
  simpl. intros; lia.
Qed.

(** ** The examples of the specification *)

Example tres_sexos_contados :
  exists r,
    valor (analise_demografica pandas_estavel tres_sexos) = Ok r
    /\ sexo_counts r = [("MASCULINO", 1); ("FEMININO", 1); (NAO_INFORMADO, 1)]
    /\ In (Print (Homens 1 3)) (eventos (analise_demografica pandas_estavel tres_sexos)).
Proof.
  eexists. split; [vm_compute; reflexivity|]. split; [reflexivity|].
  vm_compute. tauto.
Qed.

Example dois_textos_contados :
  exists r,
    valor (analise_conteudo dois_textos) = Ok r
    /\ top_palavras r = [("povo", 2); ("direito", 2)]
    /\ palavras r = ["povo"; "direito"]
    /\ frequencias r = [2; 2].
Proof.
  eexists. split; [vm_compute; reflexivity|]. repeat split.
Qed.

Example sp_e_rj_estavel :
  valor (analise_geografica pandas_estavel sp_e_rj) = Ok [("SP", 1); ("RJ", 1)].
Proof. reflexivity. Qed.

(** * The claims *)

(** ** Demographic tables *)

(** C1 (counterexample).  Seven rows with seven different marital
    statuses: the marital-status table the analysis returns keeps six of
    them, so its counts add up to 6 and not to the 7 rows. *)
Lemma demografia_soma_truncada :
  exists r,
    valor (analise_demografica pandas_estavel sete_estados_civis) = Ok r
    /\ soma (estado_civil r) = 6
    /\ List.length sete_estados_civis = 7.
Proof.
  eexists. split; [vm_compute; reflexivity|]. split; reflexivity.
Qed.

(** C1 (as amended).  The sex table counts every row, the missing ones
    under NAO INFORMADO, so its counts add up to the number of rows.  The
    age-bracket table counts the rows whose bracket, once filled, is one of
    the eight labels of [ordem_faixa]; the education and marital-status
    tables are cut to their 8 and 6 most frequent categories: their counts
    add up to at most the number of rows, and to exactly that number when
    every bracket is one of the eight labels, respectively when the column
    has no more than 8 (6) different values.  These are the tables
    [analise_demografica] returns. *)
Theorem demografia_somas (pd : Pandas) (df : DataFrame) :
  let preenchida c := dropna (fillna NAO_INFORMADO (coluna c df)) in
  soma (tabela_sexo pd df) = List.length df
  /\ (soma (tabela_faixa_etaria pd df) =
        List.length (filter (fun x => em x ordem_faixa) (preenchida FAIXA_ETARIA))
      /\ soma (tabela_faixa_etaria pd df) <= List.length df
      /\ (soma (tabela_faixa_etaria pd df) = List.length df <->
          forall x, In x (preenchida FAIXA_ETARIA) -> In x ordem_faixa))
  /\ (soma (tabela_instrucao pd df) <= List.length df
      /\ (soma (tabela_instrucao pd df) = List.length df <->
          List.length (distintos (preenchida INSTRUCAO)) <= 8))
  /\ (soma (tabela_estado_civil pd df) <= List.length df
      /\ (soma (tabela_estado_civil pd df) = List.length df <->
          List.length (distintos (preenchida ESTADO_CIVIL)) <= 6))
  /\ (forall r, valor (analise_demografica pd df) = Ok r ->
                r = tabelas_demograficas pd df).
Proof.
  intros preenchida.
  assert (Hlen : forall c, List.length (preenchida c) = List.length df).
  { intros c. unfold preenchida. rewrite dropna_fillna_length.
    unfold coluna. apply length_map. }
  assert (Hcorte : forall n c,
    soma (head n (value_counts pd (fillna NAO_INFORMADO (coluna c df)))) <= List.length df
    /\ (soma (head n (value_counts pd (fillna NAO_INFORMADO (coluna c df)))) = List.length df
        <-> List.length (distintos (preenchida c)) <= n)).
  { intros n c.
    destruct (soma_head n _ (value_counts_positivo pd (fillna NAO_INFORMADO (coluna c df))))
      as [H1 H2].
    rewrite value_counts_soma, value_counts_length in *.
    fold (preenchida c) in *. rewrite Hlen in *. tauto. }
  split; [|split; [|split; [|split]]].
  - unfold tabela_sexo. rewrite value_counts_soma. apply Hlen.
  - assert (E : soma (tabela_faixa_etaria pd df) =
                List.length (filter (fun x => em x ordem_faixa) (preenchida FAIXA_ETARIA))).
    { unfold tabela_faixa_etaria. rewrite soma_reindex.
      rewrite <- (ocorrencias_soma _ _ ordem_faixa_NoDup).
      f_equal. apply map_ext. intros l. unfold contagem_de.
      rewrite value_counts_loc. apply contagem_de_conta. }
    rewrite E. split; [reflexivity|]. split.
    + rewrite <- (Hlen FAIXA_ETARIA). apply filter_length_le.
    + rewrite <- (Hlen FAIXA_ETARIA), filter_length_all.
      split; intros H x Hx; apply em_In; now apply H.
  - apply Hcorte.
  - apply Hcorte.
  - intros r. rewrite analise_demografica_valor. destruct df; [discriminate|].
    now intros [= <-].
Qed.

(** C4.  The age-bracket table is indexed by the eight labels of
    [ordem_faixa] in that order, whatever the table holds: each label comes
    with the number of rows that carry it once the missing brackets are
    filled, which is 0 for a label no row carries.  It is the table the
    analysis draws as bars, and returns. *)
Theorem faixa_etaria_oito_categorias (pd : Pandas) (df : DataFrame) :
  let faixas := dropna (fillna NAO_INFORMADO (coluna FAIXA_ETARIA df)) in
  let t := tabela_faixa_etaria pd df in
  chaves t = ordem_faixa
  /\ List.length t = 8
  /\ (forall l, In l ordem_faixa -> In (l, ocorrencias l faixas) t)
  /\ (forall l, In l ordem_faixa -> ~ In l faixas -> In (l, 0) t)
  /\ In (Plot (Barras t)) (eventos (analise_demografica pd df))
  /\ (forall r, valor (analise_demografica pd df) = Ok r -> faixa_etaria r = t).
Proof.
  intros faixas t.
  assert (Hin : forall l, In l ordem_faixa -> In (l, ocorrencias l faixas) t).
  { intros l Hl. unfold t, tabela_faixa_etaria, reindex.
    apply in_map_iff. exists l. split; [|exact Hl]. f_equal.
    rewrite value_counts_loc. apply contagem_de_conta. }
  split; [|split; [|split; [|split; [|split]]]].
  - unfold t, tabela_faixa_etaria, reindex, chaves. rewrite map_map. apply map_id.
  - unfold t, tabela_faixa_etaria, reindex. rewrite length_map. reflexivity.
  - exact Hin.
  - intros l Hl Hnot. specialize (Hin l Hl). unfold ocorrencias in Hin.
    now rewrite (proj1 (count_occ_not_In string_dec faixas l) Hnot) in Hin.
  - destruct (analise_demografica_desenhos pd df) as [depois ->].
    simpl. tauto.
  - intros r. rewrite analise_demografica_valor. destruct df; [discriminate|].
    now intros [= <-].
Qed.

(** ** Dates and months *)

Lemma tem_data_tabela (pd : Pandas) (df : DataFrame) :
  tem_data pd df = true -> tabela_mensal pd df <> [].
Proof.
  unfold tem_data, tabela_mensal, to_datetime. intros H Hnil.
  apply groupby_size_nil in Hnil. apply existsb_exists in H.
  destruct H as [c [Hin Hc]]. rewrite Forall_forall in Hnil.
  specialize (Hnil (to_period_M (coerce pd c))).
  destruct (coerce pd c) eqn:E; try discriminate.
  assert (Some (ordinal t) = None); [|discriminate].
  apply Hnil. rewrite map_map. apply in_map_iff. exists c. now rewrite E.
Qed.

(** C3 (counterexample).  One row in January 1986 and one in March 1986
    (months 192 and 194 counted from 1970-01): the table the temporal
    analysis returns has these two months and no row for February. *)
Lemma temporal_sem_fevereiro :
  exists r,
    valor (analise_temporal pandas_estavel janeiro_e_marco) = Ok r
    /\ sugestoes_por_mes r = [(192%Z, 1); (194%Z, 1)].
Proof.
  eexists. split; [vm_compute; reflexivity|reflexivity].
Qed.

(** C3 (as amended).  When some row has a date that can be read, the
    temporal analysis returns.  Its table lists months in strictly
    increasing order; the months it lists are exactly those in which some
    row falls, each with the number of its rows, so no month comes with the
    count 0 and a month without rows between two listed months is not
    listed.  The peak is a row of the table, at the position
    [pico_index]; no row has a larger count, and no earlier month has the
    same count. *)
Theorem temporal_meses_observados (pd : Pandas) (df : DataFrame) :
  tem_data pd df = true ->
  exists r,
    valor (analise_temporal pd df) = Ok r
    /\ sugestoes_por_mes r = tabela_mensal pd df
    /\ StronglySorted crescente (sugestoes_por_mes r)
    /\ (forall m n, In (m, n) (sugestoes_por_mes r) <->
                    n = registos_no_mes pd m df /\ 0 < n)
    /\ nth_error (sugestoes_por_mes r) (pico_index r) = Some (mes_pico r, valor_pico r)
    /\ (forall m n, In (m, n) (sugestoes_por_mes r) -> n <= valor_pico r)
    /\ (forall m n, In (m, n) (sugestoes_por_mes r) -> n = valor_pico r ->
                    (mes_pico r <= m)%Z).
Proof.
  intros Hdata. apply tem_data_tabela in Hdata.
  assert (Hbf : bem_formada (tabela_mensal pd df)) by apply groupby_size_bem_formada.
  destruct Hbf as [Hs Hp].
  destruct (pico_da_tabela _ Hs Hdata)
    as (k & v & l1 & l2 & E & Ht & H1 & H2 & Hi & Hk1 & Hk2).
  pose proof (linha_maxima_maximo _ _ E) as Hmax. simpl in Hmax.
  rewrite analise_temporal_valor. unfold idxmax. rewrite E.
  cbn [option_map fst]. rewrite Hi. eexists. split; [reflexivity|].
  cbn [sugestoes_por_mes mes_pico valor_pico pico_index]. rewrite Hmax.
  split; [reflexivity|]. split; [exact Hs|]. split; [|split; [|split]].
  - intros m n. apply In_groupby_size.
  - rewrite Ht. rewrite nth_error_app2 by lia. now rewrite Nat.sub_diag.
  - intros m n Hin. rewrite Ht in Hin. apply in_app_or in Hin.
    rewrite Forall_forall in H1, H2.
    destruct Hin as [Hin|[[= _ <-]|Hin]]; [apply H1 in Hin|..|apply H2 in Hin];
      simpl in *; lia.
  - intros m n Hin ->. rewrite Ht in Hin. apply in_app_or in Hin.
    rewrite Forall_forall in H1, Hk2.
    destruct Hin as [Hin|[[= <-]|Hin]];
      [apply H1 in Hin|..|apply Hk2 in Hin]; simpl in *; lia.
Qed.

Lemma temporal_meses_observados_witness :
  exists r,
    valor (analise_temporal pandas_estavel janeiro_e_marco) = Ok r
    /\ StronglySorted crescente (sugestoes_por_mes r)
    /\ nth_error (sugestoes_por_mes r) (pico_index r) = Some (mes_pico r, valor_pico r).
Proof.
  destruct (temporal_meses_observados pandas_estavel janeiro_e_marco eq_refl)
    as (r & H1 & _ & H3 & _ & H5 & _).
  exists r. split; [exact H1|]. split; [exact H3|exact H5].
Defined.

Lemma eventos_bind {A B : Type} (m : M A) (f : A -> M B) (df : DataFrame) :
  exists depois, eventos (bind m f df) = eventos (m df) ++ depois.
Proof.
  unfold bind, eventos. destruct (m df) as [[d1 t1] [a|e]]; simpl.
  - destruct (f a d1) as [[d2 t2] r]. simpl. now exists t2.
  - exists []. now rewrite app_nil_r.
Qed.

Lemma analise_preliminar_valor (df : DataFrame) :
  valor (analise_preliminar df) = Ok (isnull_sum df).
Proof.
  unfold analise_preliminar. passos.
  match goal with |- context [para_cada ?f ?l ?d] =>
    destruct (para_cada_ok f l d) as [t E] end; [|now rewrite E].
  intros [c n] Hin. passos. destruct df as [|r df]; [|now eexists].
  exfalso. apply filter_In in Hin. destruct Hin as [Hin Hn].
  simpl in Hin. cbn [snd] in Hn.
  repeat (destruct Hin as [[= <- <-]|Hin]; [discriminate Hn|]). exact Hin.
Qed.

Lemma analise_preliminar_destino (df : DataFrame) :
  destino (analise_preliminar df) = df.
Proof.
  unfold analise_preliminar. passos.
  match goal with |- context [para_cada ?f ?l ?d] =>
    pose proof (para_cada_destino f l d) as H;
    destruct (para_cada f l d) as [[d' t'] [[]|e]] end;
    unfold destino in H; cbn [fst] in *; rewrite H; try reflexivity;
    intros [c n] d; passos; destruct (_ =? 0); reflexivity.
Qed.

(** C8 (counterexample).  The second row's date is the text "sem data".
    The temporal analysis turns it into [NaT], but the preliminary
    analysis, which the main block runs first, on the table as loaded,
    counts no missing DATA: the run prints no missing-value line for that
    column. *)
Lemma data_ilegivel_fora_das_faltantes :
  coluna DATA (destino (analise_temporal pandas_estavel uma_data_ilegivel)) =
    [ Instante {| ano := 1986; mes := 1; dia := 15 |}; NaT ]
  /\ valor (analise_preliminar uma_data_ilegivel) = Ok (isnull_sum uma_data_ilegivel)
  /\ contagem_de "DATA" (isnull_sum uma_data_ilegivel) = 0
  /\ valor (principal pandas_estavel (Legivel 7 uma_data_ilegivel)) = Ok tt
  /\ forallb (sem_faltantes_de "DATA")
             (eventos (principal pandas_estavel (Legivel 7 uma_data_ilegivel))) = true.
Proof. vm_compute. repeat split; reflexivity. Qed.

(** C8 (as amended).  A date that is text and cannot be read becomes
    [NaT] when the temporal analysis converts the column, and belongs to no
    month: the monthly counts, the values missing at load and the unreadable
    dates add up to the number of rows.  The preliminary analysis returns
    the missing values of the table it is given; for DATA these are the
    cells that are already missing, and an unreadable date is not one of
    them.  The main block runs it on the table as loaded, before any
    conversion.  After the conversion the column has as many missing
    values more as there were unreadable dates. *)
Theorem datas_ilegiveis (pd : Pandas) (df : DataFrame) :
  coluna DATA (destino (analise_temporal pd df)) = to_datetime pd (coluna DATA df)
  /\ (forall c, ilegivel pd c = true ->
                coerce pd c = NaT /\ to_period_M (coerce pd c) = None
                /\ isnull_data c = false)
  /\ soma_mensal (tabela_mensal pd df)
     + conta_nulos isnull_data (coluna DATA df)
     + conta_nulos (ilegivel pd) (coluna DATA df) = List.length df
  /\ valor (analise_preliminar df) = Ok (isnull_sum df)
  /\ contagem_de "DATA" (isnull_sum df) = conta_nulos isnull_data (coluna DATA df)
  /\ (forall n, exists depois,
        eventos (principal pd (Legivel n df)) =
        [Print Iniciando; Print Analisando]
        ++ fst (carregar_dados (Legivel n df))
        ++ eventos (analise_preliminar df) ++ depois)
  /\ conta_nulos isnull_data (coluna DATA (destino (analise_temporal pd df))) =
     conta_nulos isnull_data (coluna DATA df)
     + conta_nulos (ilegivel pd) (coluna DATA df).
Proof.
  assert (Hcol : coluna DATA (destino (analise_temporal pd df)) =
                 to_datetime pd (coluna DATA df)).
  { rewrite analise_temporal_destino. unfold converte_data, to_datetime, coluna.
    rewrite !map_map. reflexivity. }
  split; [exact Hcol|]. split; [|split; [|split; [|split; [|split]]]].
  - intros [| x | |t]; simpl; try discriminate.
    destruct (parse_datetime pd x); [discriminate|]. tauto.
  - clear Hcol. unfold tabela_mensal. rewrite soma_mensal_groupby_size.
    unfold to_datetime, coluna, conta_nulos. rewrite !map_map.
    induction df as [|r df IH]; [reflexivity|]. cbn [map filter List.length].
    destruct (DATA r) as [| x | |t]; cbn [coerce to_period_M isnull_data ilegivel];
      try (destruct (parse_datetime pd x)); cbn [to_period_M List.length]; lia.
  - apply analise_preliminar_valor.
  - reflexivity.
  - intros n. unfold principal. cbn [carregar_dados fst].
    match goal with |- context [bind ?m ?f df] =>
      destruct (eventos_bind m f df) as [depois E];
      destruct (bind m f df) as [[d' t] r] end.
    unfold eventos in E at 1. cbn [fst snd] in E. subst t.
    exists depois. unfold eventos at 1. cbn [fst snd]. reflexivity.
  - rewrite Hcol. clear Hcol.
    unfold to_datetime, coluna, conta_nulos. rewrite !map_map.
    induction df as [|r df IH]; [reflexivity|]. cbn [map filter].
    destruct (DATA r) as [| x | |t]; cbn [coerce isnull_data ilegivel];
      try (destruct (parse_datetime pd x)); cbn [isnull_data List.length]; lia.
Qed.

(** ** The ranking of regions *)

Lemma chaves_filter (g : string -> nat) (c : nat) (t : Serie) :
  Forall (fun x => snd x = g (fst x)) t ->
  chaves (filter (com_contagem c) t) = filter (fun k => g k =? c) (chaves t).
Proof.
  unfold chaves, com_contagem.
  induction 1 as [|[k n] t Hx _ IH]; simpl; [reflexivity|].
  simpl in Hx. subst n. destruct (g k =? c); simpl; now rewrite IH.
Qed.

Lemma filter_firstn {A : Type} (f : A -> bool) (n : nat) (l : list A) :
  filter f l = filter f (firstn n l) ++ filter f (skipn n l).
Proof. now rewrite <- filter_app, firstn_skipn. Qed.

Lemma NoDup_firstn {A : Type} (n : nat) (l : list A) : NoDup l -> NoDup (firstn n l).
Proof.
  intros H. revert n. induction H as [|x l Hx _ IH]; intros [|n]; simpl; try constructor.
  - intros Hin. apply Hx. now apply (firstn_incl n l).
  - apply IH.
Qed.

(** ** Words *)

Lemma letra_minuscula (c : ascii) : Latin1.letra c = true -> Latin1.lower_char c = c.
Proof.
  destruct c as [[] [] [] [] [] [] [] []]; vm_compute; intros H;
    first [reflexivity | discriminate H].
Qed.

Lemma sequencia_letras (k : nat) (s : Caracteres) :
  k <= sequencia s ->
  List.length (firstn k s) = k /\ Forall (fun c => Latin1.letra c = true) (firstn k s).
Proof.
  revert k. induction s as [|c s IH]; intros k Hk; simpl in Hk.
  - assert (k = 0) by lia. subst k. split; [reflexivity|constructor].
  - destruct k as [|k]; [split; [reflexivity|constructor]|].
    destruct (Latin1.letra c) eqn:E; [|lia].
    destruct (IH k) as [H1 H2]; [lia|]. simpl. split; [now rewrite H1|].
    now constructor.
Qed.

Lemma recua_limites (k : nat) (s m : Caracteres) :
  recua k s = Some m -> exists j, m = firstn j s /\ 4 <= j <= k.
Proof.
  induction k as [|k IH]; simpl; [discriminate|].
  destruct k as [|[|[|k]]]; try discriminate.
  change (4 <=? S (S (S (S k)))) with true. cbv iota.
  destruct (fronteira _ _).
  - intros [= <-]. exists (S (S (S (S k)))). split; [reflexivity|lia].
  - intros H. destruct (IH H) as [j [Hj Hle]]. exists j. split; [exact Hj|lia].
Qed.

Lemma casa_letras (antes : option ascii) (s m : Caracteres) :
  casa antes s = Some m ->
  4 <= List.length m /\ Forall (fun c => Latin1.letra c = true) m.
Proof.
  unfold casa. destruct (fronteira antes (nth_error s 0)); [|discriminate].
  intros H. apply recua_limites in H. destruct H as [j [-> Hj]].
  destruct (sequencia_letras j s) as [H1 H2]; [lia|]. rewrite H1. split; [lia|exact H2].
Qed.

Lemma findall__letras (s : Caracteres) (antes : option ascii) (salta : nat) :
  Forall (fun m => 4 <= List.length m /\ Forall (fun c => Latin1.letra c = true) m)
         (findall_ antes salta s).
Proof.
  revert antes salta. induction s as [|c s IH]; intros antes salta; simpl.
  - constructor.
  - destruct salta as [|k]; [|apply IH].
    destruct (casa antes (c :: s)) as [m|] eqn:E; [|apply IH].
    constructor; [|apply IH]. now apply (casa_letras antes (c :: s)).
Qed.

Lemma length_string_of_list_ascii (l : list ascii) :
  String.length (string_of_list_ascii l) = List.length l.
Proof. induction l as [|c l IH]; simpl; [reflexivity|now rewrite IH]. Qed.

Lemma findall_letras (s w : string) :
  In w (findall s) ->
  4 <= String.length w
  /\ Forall (fun c => Latin1.letra c = true) (list_ascii_of_string w)
  /\ lower w = w.
Proof.
  unfold findall. intros H. apply in_map_iff in H. destruct H as [m [<- Hin]].
  pose proof (findall__letras (list_ascii_of_string s) None 0) as Hall.
  rewrite Forall_forall in Hall. destruct (Hall m Hin) as [H1 H2].
  rewrite length_string_of_list_ascii. unfold lower.
  rewrite list_ascii_of_string_of_list_ascii. split; [exact H1|]. split; [exact H2|].
  f_equal. clear - H2. induction H2 as [|c m Hc _ IH]; simpl; [reflexivity|].
  now rewrite IH, letra_minuscula.
Qed.

Lemma ocorrencias_In (k : string) (l : list string) : 0 < ocorrencias k l <-> In k l.
Proof. unfold ocorrencias. symmetry. apply count_occ_In. Qed.

Lemma In_tabela_palavras (w : string) (c : nat) (df : DataFrame) :
  In (w, c) (tabela_palavras df) ->
  c = ocorrencias w (palavras_filtradas df) /\ In w (palavras_filtradas df).
Proof.
  unfold tabela_palavras, most_common. intros H. apply firstn_incl in H.
  apply (Permutation_in _ (ordena_perm _)) in H. apply In_conta in H.
  destruct H as [-> Hpos]. split; [reflexivity|]. now apply ocorrencias_In.
Qed.

Lemma palavras_filtradas_validas (w : string) (df : DataFrame) :
  In w (palavras_filtradas df) -> palavra_valida w.
Proof.
  unfold palavras_filtradas. intros H. apply filter_In in H. destruct H as [Hin Hstop].
  apply findall_letras in Hin. destruct Hin as (H1 & H2 & H3).
  repeat split; try assumption. now apply negb_true_iff.
Qed.

(** C5.  Every word of the table the content analysis returns has four
    characters or more, all of them letters of the pattern's class, is in
    lower case, and is not a stop word; so no stop word and no word shorter
    than four letters is among its words. *)
Theorem conteudo_palavras_validas (df : DataFrame) :
  Forall (fun wc => palavra_valida (fst wc)) (tabela_palavras df)
  /\ (forall w, In w stop_words -> ~ In w (chaves (tabela_palavras df)))
  /\ (forall w, String.length w < 4 -> ~ In w (chaves (tabela_palavras df)))
  /\ (forall r, valor (analise_conteudo df) = Ok r ->
                top_palavras r = tabela_palavras df
                /\ palavras r = chaves (tabela_palavras df)).
Proof.
  assert (H : forall w, In w (chaves (tabela_palavras df)) -> palavra_valida w).
  { intros w Hin. unfold chaves in Hin. apply in_map_iff in Hin.
    destruct Hin as [[w' c] [<- Hin]]. apply In_tabela_palavras in Hin.
    apply palavras_filtradas_validas with (df := df). tauto. }
  split; [|split; [|split]].
  - apply Forall_forall. intros [w c] Hin. apply H. unfold chaves.
    apply in_map_iff. now exists (w, c).
  - intros w Hstop Hin. apply H in Hin. destruct Hin as (_ & _ & _ & Hem).
    apply em_In in Hstop. congruence.
  - intros w Hlen Hin. apply H in Hin. destruct Hin as (H4 & _). lia.
  - intros r. rewrite analise_conteudo_valor.
    destruct (tabela_palavras df) eqn:E; [discriminate|].
    intros [= <-]. split; reflexivity.
Qed.

(** ** The content analysis on a table without words *)

Lemma conta_nil (l : list string) : conta l = [] <-> l = [].
Proof.
  split; [|now intros ->]. intros H. pose proof (soma_conta l) as Hs.
  rewrite H in Hs. destruct l; [reflexivity|discriminate Hs].
Qed.

Lemma tabela_palavras_nil (df : DataFrame) :
  tabela_palavras df = [] <-> palavras_filtradas df = [].
Proof.
  unfold tabela_palavras, most_common. rewrite <- conta_nil. split.
  - intros H. destruct (ordena (conta (palavras_filtradas df))) as [|x t] eqn:E;
      [|discriminate H].
    apply Permutation_nil. rewrite <- E. apply ordena_perm.
  - now intros ->.
Qed.

Lemma dropna_nulos (s : list (option string)) :
  (forall c, In c s -> c = None) -> dropna s = [].
Proof.
  induction s as [|[x|] s IH]; intros H; simpl; [reflexivity| |].
  - discriminate (H (Some x) (or_introl eq_refl)).
  - apply IH. intros c Hc. apply H. now right.
Qed.

(** C10.  The content analysis raises when it unpacks the list of top
    words exactly when no word is left to count, and then it has drawn and
    saved nothing; this is so on every table whose suggestion column has no
    text at all.  It returns exactly when at least one word is counted. *)
Theorem conteudo_sem_palavras :
  (exists df, valor (analise_conteudo df) = Raise ValueError)
  /\ forall df,
       ((forall r, In r df -> SUGESTAO_TEXTO r = None) ->
        valor (analise_conteudo df) = Raise ValueError)
       /\ (palavras_filtradas df = [] <-> valor (analise_conteudo df) = Raise ValueError)
       /\ (palavras_filtradas df = [] ->
           eventos (analise_conteudo df) = [Print (Cabecalho Conteudo)])
       /\ (palavras_filtradas df <> [] <->
           exists r, valor (analise_conteudo df) = Ok r).
Proof.
  assert (Hraise : forall df,
    palavras_filtradas df = [] <-> valor (analise_conteudo df) = Raise ValueError).
  { intros df. rewrite <- tabela_palavras_nil, analise_conteudo_valor.
    destruct (tabela_palavras df); split; congruence. }
  split; [exists []; now apply Hraise|].
  intros df. split; [|split; [exact (Hraise df)|split]].
  - intros Hnull. apply Hraise. unfold palavras_filtradas.
    rewrite dropna_nulos; [reflexivity|].
    intros c Hc. unfold coluna in Hc. apply in_map_iff in Hc.
    destruct Hc as [r [<- Hr]]. now apply Hnull.
  - intros Hnil. apply tabela_palavras_nil in Hnil.
    unfold analise_conteudo. passos.
    fold (palavras_filtradas df). fold (tabela_palavras df). now rewrite Hnil.
  - rewrite <- tabela_palavras_nil, analise_conteudo_valor.
    destruct (tabela_palavras df); split.
    + congruence.
    + intros [r Hr]. discriminate Hr.
    + intros _. now eexists.
    + discriminate.
Qed.

(** ** What the aggregations write, and what they read *)

Lemma destino_bind {A B : Type} (m : M A) (f : A -> M B) (df : DataFrame) :
  destino (bind m f df) =
  match valor (m df) with
  | Ok a => destino (f a (destino (m df)))
  | Raise _ => destino (m df)
  end.
Proof.
  unfold bind, destino, valor. destruct (m df) as [[d1 t1] [a|e]]; simpl; [|reflexivity].
  now destruct (f a d1) as [[d2 t2] r].
Qed.

Lemma valor_bind {A B : Type} (m : M A) (f : A -> M B) (df : DataFrame) :
  valor (bind m f df) =
  match valor (m df) with
  | Ok a => valor (f a (destino (m df)))
  | Raise e => Raise e
  end.
Proof.
  unfold bind, destino, valor. destruct (m df) as [[d1 t1] [a|e]]; simpl; [|reflexivity].
  now destruct (f a d1) as [[d2 t2] r].
Qed.

Section Leituras.

Variable pd : Pandas.

Lemma coerce_idem (c : celula_data) : coerce pd (coerce pd c) = coerce pd c.
Proof. destruct c as [|x| |t]; simpl; try reflexivity. now destruct (parse_datetime pd x). Qed.

Ltac mesma_coluna :=
  unfold leitura, preenche_demografia, preenche_uf, converte_data, fillna,
         to_datetime, coluna;
  rewrite !map_map; cbn [SEXO FAIXA_ETARIA INSTRUCAO ESTADO_CIVIL UF DATA
                         SUGESTAO_TEXTO set_UF set_DATA];
  repeat (match goal with |- (_, _) = (_, _) => apply f_equal2 end);
  apply map_ext; intros r;
  rewrite ?preenchido_idem, ?coerce_idem; reflexivity.

Lemma leitura_preenche_demografia (df : DataFrame) :
  leitura pd (preenche_demografia df) = leitura pd df.
Proof. mesma_coluna. Qed.

Lemma leitura_preenche_uf (df : DataFrame) :
  leitura pd (preenche_uf df) = leitura pd df.
Proof. mesma_coluna. Qed.

Lemma leitura_converte_data (df : DataFrame) :
  leitura pd (converte_data pd df) = leitura pd df.
Proof. mesma_coluna. Qed.

Lemma leitura_length (d d' : DataFrame) :
  leitura pd d = leitura pd d' -> List.length d = List.length d'.
Proof.
  unfold leitura. intros [= _ _ _ _ _ _ H]. unfold coluna in H.
  apply (f_equal (@List.length _)) in H. now rewrite !length_map in H.
Qed.

Lemma leitor_ret {A : Type} (a : A) : leitor pd (ret a).
Proof. intros d d' H. split; reflexivity. Qed.

Lemma leitor_bind {A B : Type} (m : M A) (f : A -> M B) :
  leitor pd m -> (forall a, leitor pd (f a)) -> leitor pd (bind m f).
Proof.
  intros Hm Hf d d' H. destruct (Hm d d' H) as [Hv Hl].
  destruct (Hm d' d (eq_sym H)) as [_ Hl'].
  rewrite !valor_bind, !destino_bind, <- Hv.
  destruct (valor (m d)) as [a|e]; [|split; [reflexivity|exact Hl]].
  destruct (Hf a (destino (m d)) (destino (m d'))) as [Hv2 Hl2]; [congruence|].
  split; [exact Hv2|congruence].
Qed.

Lemma leitor_demografica : leitor pd (analise_demografica pd).
Proof.
  intros d d' H. rewrite analise_demografica_destino, !analise_demografica_valor.
  split; [|apply leitura_preenche_demografia].
  pose proof (leitura_length d d' H) as Hlen.
  unfold leitura in H. injection H as H1 H2 H3 H4 _ _ _.
  destruct d, d'; try discriminate Hlen; [reflexivity|].
  unfold tabelas_demograficas, tabela_sexo, tabela_faixa_etaria, tabela_instrucao,
    tabela_estado_civil. now rewrite H1, H2, H3, H4.
Qed.

Lemma leitor_geografica : leitor pd (analise_geografica pd).
Proof.
  intros d d' H. rewrite analise_geografica_destino, !analise_geografica_valor.
  split; [|apply leitura_preenche_uf].
  unfold leitura in H. injection H as _ _ _ _ H5 _ _.
  unfold tabela_uf, tabela_uf_completa. now rewrite H5.
Qed.

Lemma leitor_temporal : leitor pd (analise_temporal pd).
Proof.
  intros d d' H. rewrite analise_temporal_destino, !analise_temporal_valor.
  split; [|apply leitura_converte_data].
  unfold leitura in H. injection H as _ _ _ _ _ H6 _.
  unfold tabela_mensal. now rewrite H6.
Qed.

Lemma leitor_conteudo : leitor pd analise_conteudo.
Proof.
  intros d d' H. rewrite analise_conteudo_destino, !analise_conteudo_valor.
  split; [|reflexivity].
  unfold leitura in H. injection H as _ _ _ _ _ _ H7.
  unfold tabela_palavras, palavras_filtradas. now rewrite H7.
Qed.

Lemma leitor_executa (a : agregador) : leitor pd (executa pd a).
Proof.
  destruct a; unfold executa; apply leitor_bind;
    auto using leitor_demografica, leitor_geografica, leitor_temporal,
               leitor_conteudo, leitor_ret.
Qed.

Lemma leitor_agregadores : leitor pd (agregadores pd).
Proof.
  unfold agregadores.
  apply leitor_bind; [apply leitor_demografica|intros t1].
  apply leitor_bind; [apply leitor_geografica|intros t2].
  apply leitor_bind; [apply leitor_temporal|intros t3].
  apply leitor_bind; [apply leitor_conteudo|intros t4].
  apply leitor_ret.
Qed.

Lemma leitura_depois (antes : list agregador) (df : DataFrame) :
  leitura pd (depois pd antes df) = leitura pd df.
Proof.
  unfold depois. revert df. induction antes as [|a antes IH]; intros df; simpl;
    [reflexivity|].
  rewrite IH. apply (leitor_executa a df df eq_refl).
Qed.

End Leituras.

Section Escritas.

Variable pd : Pandas.

Lemma destino_executa (a : agregador) (df : DataFrame) :
  destino (executa pd a df) = escreve pd a df.
Proof.
  destruct a; unfold executa; rewrite destino_bind; cbn [escreve].
  - rewrite analise_demografica_destino. now destruct (valor _).
  - rewrite analise_geografica_destino. now destruct (valor _).
  - rewrite analise_temporal_destino. now destruct (valor _).
  - rewrite analise_conteudo_destino. now destruct (valor _).
Qed.

Lemma escreve_comuta (a b : agregador) (df : DataFrame) :
  escreve pd a (escreve pd b df) = escreve pd b (escreve pd a df).
Proof.
  destruct a, b; cbn [escreve]; try reflexivity;
    unfold preenche_demografia, preenche_uf, converte_data;
    rewrite !map_map; apply map_ext; intros r; reflexivity.
Qed.

Lemma escreve_idem (a : agregador) (df : DataFrame) :
  escreve pd a (escreve pd a df) = escreve pd a df.
Proof.
  destruct a; cbn [escreve]; try reflexivity;
    unfold preenche_demografia, preenche_uf, converte_data;
    rewrite !map_map; apply map_ext; intros r;
    cbn [SEXO FAIXA_ETARIA INSTRUCAO ESTADO_CIVIL UF DATA SUGESTAO_TEXTO set_UF set_DATA];
    rewrite ?preenchido_idem, ?coerce_idem; reflexivity.
Qed.

Lemma depois_escreve (antes : list agregador) (df : DataFrame) :
  depois pd antes df = fold_left (fun d a => escreve pd a d) antes df.
Proof.
  unfold depois. revert df. induction antes as [|a antes IH]; intros df; simpl;
    [reflexivity|]. now rewrite IH, destino_executa.
Qed.

Lemma depois_perm (l l' : list agregador) (df : DataFrame) :
  Permutation l l' -> depois pd l df = depois pd l' df.
Proof.
  rewrite !depois_escreve. intros H. revert df.
  induction H as [|a l l' _ IH|a b l|l l' l'' _ IH1 _ IH2]; intros df; simpl.
  - reflexivity.
  - apply IH.
  - now rewrite escreve_comuta.
  - now rewrite IH1.
Qed.

Lemma destino_agregadores (df : DataFrame) :
  destino (agregadores pd df) =
  escreve pd Cronologico (escreve pd Geografico (escreve pd Demografico df)).
Proof.
  unfold agregadores. cbn [escreve].
  rewrite destino_bind, analise_demografica_valor, analise_demografica_destino.
  destruct df as [|r df]; [reflexivity|].
  rewrite destino_bind, analise_geografica_valor, analise_geografica_destino.
  rewrite destino_bind, analise_temporal_destino.
  destruct (valor (analise_temporal pd _)); [|reflexivity].
  rewrite destino_bind, analise_conteudo_destino.
  now destruct (valor (analise_conteudo _)).
Qed.

Lemma escreve_tudo_idem (df : DataFrame) :
  let tudo d := escreve pd Cronologico (escreve pd Geografico (escreve pd Demografico d)) in
  tudo (tudo df) = tudo df.
Proof.
  cbn [escreve]. unfold preenche_demografia, preenche_uf, converte_data.
  rewrite !map_map. apply map_ext. intros r.
  cbn [SEXO FAIXA_ETARIA INSTRUCAO ESTADO_CIVIL UF DATA SUGESTAO_TEXTO set_UF set_DATA].
  now rewrite !preenchido_idem, coerce_idem.
Qed.

End Escritas.

(** C2 (counterexample).  On a table of one row with every value missing
    the demographic analysis leaves the four columns it reads filled with
    NAO INFORMADO: the table is not the one it was given, and the
    preliminary analysis, run on it afterwards, no longer finds the missing
    sex. *)
Lemma demografia_escreve_na_tabela :
  destino (analise_demografica pandas_estavel [vazio]) =
    [ {| SEXO := Some NAO_INFORMADO; FAIXA_ETARIA := Some NAO_INFORMADO;
         INSTRUCAO := Some NAO_INFORMADO; ESTADO_CIVIL := Some NAO_INFORMADO;
         UF := None; DATA := NaN; SUGESTAO_TEXTO := None |} ]
  /\ destino (analise_demografica pandas_estavel [vazio]) <> [vazio]
  /\ contagem_de "SEXO" (isnull_sum [vazio]) = 1
  /\ contagem_de "SEXO"
       (isnull_sum (destino (analise_demografica pandas_estavel [vazio]))) = 0.
Proof.
  split; [reflexivity|]. split; [discriminate|]. split; reflexivity.
Qed.

(** C2 (as amended).  The aggregations assign columns of the table they
    are given: the demographic one fills the missing values of the four
    columns it reads, the geographic one those of UF, the temporal one
    converts DATA, the content one assigns nothing.  Each reads only what it
    assigns itself, and assigning twice changes nothing more, so whatever
    aggregations ran before, in whatever order, each returns what it returns
    on the table as loaded; and the table left by a sequence of
    aggregations does not depend on their order. *)
Theorem agregadores_escrevem_e_comutam (pd : Pandas) (df : DataFrame) :
  destino (analise_demografica pd df) = preenche_demografia df
  /\ destino (analise_geografica pd df) = preenche_uf df
  /\ destino (analise_temporal pd df) = converte_data pd df
  /\ destino (analise_conteudo df) = df
  /\ (forall a antes,
        valor (executa pd a (depois pd antes df)) = valor (executa pd a df))
  /\ (forall l l', Permutation l l' -> depois pd l df = depois pd l' df).
Proof.
  split; [apply analise_demografica_destino|].
  split; [apply analise_geografica_destino|].
  split; [apply analise_temporal_destino|].
  split; [apply analise_conteudo_destino|].
  split.
  - intros a antes. apply (leitor_executa pd a). apply leitura_depois.
  - intros l l'. apply depois_perm.
Qed.

(** C9.  Running the four aggregations again on the table the first run
    left gives what the first run gave, the tables or the exception that
    ended it, and leaves the table as the first run left it; each
    aggregation taken alone also returns on that table what it returns on
    the table as loaded. *)
Theorem agregadores_segunda_execucao (pd : Pandas) (df : DataFrame) :
  let primeira := agregadores pd df in
  let segunda := agregadores pd (destino primeira) in
  valor segunda = valor primeira
  /\ destino segunda = destino primeira
  /\ (forall a, valor (executa pd a (destino primeira)) = valor (executa pd a df)).
Proof.
  intros primeira segunda.
  assert (Hl : leitura pd (destino primeira) = leitura pd df).
  { apply (leitor_agregadores pd df df eq_refl). }
  split; [apply (leitor_agregadores pd); exact Hl|]. split.
  - unfold segunda, primeira. rewrite !destino_agregadores.
    apply escreve_tudo_idem.
  - intros a. apply (leitor_executa pd a). exact Hl.
Qed.

(** ** A load that fails *)

(** C6 (counterexample).  With no file on disk the console carries two
    reports of the failure, the loader's and the main block's, not one. *)
Lemma falha_relatada_duas_vezes :
  eventos (principal pandas_estavel Ausente) =
    [ Print Iniciando; Print Analisando; Print ArquivoNaoEncontrado;
      Print CertifiqueSe; Print NaoFoiPossivelCarregar ]
  /\ List.length (filter relato_de_falha (eventos (principal pandas_estavel Ausente))) = 2.
Proof. split; reflexivity. Qed.

(** C6 (as amended).  When the file is missing or [read_csv] raised, the
    loader returns no table, having printed one report of the failure.  The
    main block prints one more and ends normally: it starts no analysis,
    draws and saves nothing, and the console carries the two reports. *)
Theorem carga_falhada (pd : Pandas) (a : arquivo) :
  falha a = true ->
  snd (carregar_dados a) = None
  /\ List.length (filter relato_de_falha (fst (carregar_dados a))) = 1
  /\ principal pd a =
       (None,
        [Print Iniciando; Print Analisando] ++ fst (carregar_dados a)
        ++ [Print NaoFoiPossivelCarregar],
        Ok tt)
  /\ forallb (fun e => negb (de_analise e)) (eventos (principal pd a)) = true
  /\ List.length (filter relato_de_falha (eventos (principal pd a))) = 2.
Proof.
  destruct a as [|e|n df]; intros H; try discriminate H; repeat split.
Qed.

Lemma carga_falhada_witness :
  snd (carregar_dados (Ilegivel (Outra "PermissionError"))) = None
  /\ forallb (fun e => negb (de_analise e))
             (eventos (principal pandas_estavel (Ilegivel (Outra "PermissionError")))) = true.
Proof.
  destruct (carga_falhada pandas_estavel (Ilegivel (Outra "PermissionError")) eq_refl)
    as (H1 & _ & _ & H4 & _).
  split; [exact H1|exact H4].
Defined.

(** ** Tables the analyses cannot finish on *)

Lemma tabela_mensal_nil (pd : Pandas) (df : DataFrame) :
  tabela_mensal pd df = [] <-> tem_data pd df = false.
Proof.
  split.
  - intros H. destruct (tem_data pd df) eqn:E; [|reflexivity].
    now apply tem_data_tabela in E.
  - intros H. unfold tabela_mensal. apply groupby_size_nil.
    unfold tem_data in H. unfold to_datetime. rewrite map_map.
    apply Forall_forall. intros o Ho. apply in_map_iff in Ho.
    destruct Ho as [c [<- Hc]].
    destruct (coerce pd c) eqn:Ec; try reflexivity.
    assert (existsb (fun c => match coerce pd c with Instante _ => true | _ => false end)
                    (coluna DATA df) = true); [|congruence].
    apply existsb_exists. exists c. now rewrite Ec.
Qed.

(** X1.  The temporal analysis raises exactly when no row has a date that can
    be read: [idxmax] finds the monthly table empty.  The column is
    converted by then, and no figure is saved. *)
Theorem temporal_sem_datas (pd : Pandas) (df : DataFrame) :
  (tem_data pd df = false <-> valor (analise_temporal pd df) = Raise ValueError)
  /\ (tem_data pd df = false <->
      eventos (analise_temporal pd df) = [Print (Cabecalho Temporal); Plot (Linha [])])
  /\ destino (analise_temporal pd df) = converte_data pd df.
Proof.
  split; [|split; [|apply analise_temporal_destino]].
  - split.
    + intros H. apply tabela_mensal_nil in H.
      rewrite analise_temporal_valor, H. reflexivity.
    + intros H. destruct (tem_data pd df) eqn:E; [|reflexivity].
      apply tem_data_tabela in E.
      destruct (pico_da_tabela (tabela_mensal pd df)
                  (proj1 (groupby_size_bem_formada _)) E)
        as (k & v & l1 & l2 & Ek & _ & _ & _ & Hi & _).
      rewrite analise_temporal_valor in H. unfold idxmax in H.
      rewrite Ek in H. cbn [option_map fst] in H. rewrite Hi in H. discriminate H.
  - rewrite <- tabela_mensal_nil.
    unfold analise_temporal. passos. colunas.
    unfold tabela_mensal, to_datetime, coluna. rewrite !map_map.
    match goal with |- context [groupby_size ?k] => set (t := groupby_size k) end.
    split.
    + intros ->. reflexivity.
    + destruct t as [|x t]; [reflexivity|].
      destruct (idxmax (x :: t)) as [k|]; [|intros [= H]; discriminate H].
      destruct (index_of k (x :: t)); intros [= H]; discriminate H.
Qed.

(** ** The ranking of words *)

(** X3.  [Counter.most_common] is documented to list equal counts in the order
    first met: the words of each count in the content table appear in the
    order in which they are first met in the text, and each comes with the
    number of times it occurs among the words kept. *)
Theorem conteudo_empates_por_ordem (df : DataFrame) :
  let tokens := palavras_filtradas df in
  Sorted decrescente (tabela_palavras df)
  /\ (forall w c, In (w, c) (tabela_palavras df) -> c = ocorrencias w tokens)
  /\ forall c, exists resto,
       filter (fun w => ocorrencias w tokens =? c) (distintos tokens)
       = chaves (filter (com_contagem c) (tabela_palavras df)) ++ resto.
Proof.
  intros tokens. unfold tabela_palavras, most_common. fold tokens.
  split; [apply firstn_sorted, ordena_sorted|]. split.
  - intros w c H. apply In_tabela_palavras in H. tauto.
  - intros c. exists (chaves (filter (com_contagem c) (skipn 15 (ordena (conta tokens))))).
    unfold chaves. rewrite <- map_app, <- filter_firstn, ordena_estavel.
    fold (chaves (filter (com_contagem c) (conta tokens))).
    rewrite (chaves_filter (fun w => ocorrencias w tokens)).
    + now rewrite chaves_conta.
    + apply Forall_forall. intros [w n] Hin. apply In_conta in Hin. simpl. tauto.
Qed.

(** * The rest of the script *)

(** ** What each function prints, leaves and returns *)

Lemma para_cada_imprime {A : Type} (f : A -> M unit) (g : A -> evento)
    (l : list A) (df : DataFrame) :
  (forall x, In x l -> f x df = (df, [g x], Ok tt)) ->
  para_cada f l df = (df, map g l, Ok tt).
Proof.
  induction l as [|x l IH]; intros H; cbn [para_cada map]; [reflexivity|].
  unfold bind. rewrite (H x (or_introl eq_refl)).
  rewrite IH; [reflexivity|]. intros y Hy. apply H. now right.
Qed.

Lemma analise_preliminar_corre (df : DataFrame) :
  analise_preliminar df =
  (df,
   Print (Cabecalho Preliminar)
   :: map (fun cf => Print (Faltantes (fst cf) (snd cf) (List.length df)))
          (filter (fun cf => 0 <? snd cf) (isnull_sum df)),
   Ok (isnull_sum df)).
Proof.
  unfold analise_preliminar. passos.
  erewrite para_cada_imprime
    with (g := fun cf => Print (Faltantes (fst cf) (snd cf) (List.length df))).
  - cbn [app]. rewrite app_nil_r. reflexivity.
  - intros cf Hin. destruct df as [|r df].
    + vm_compute in Hin. destruct Hin.
    + reflexivity.
Qed.

Section Corridas.

Variable pd : Pandas.

Lemma analise_geografica_corre (df : DataFrame) :
  analise_geografica pd df =
  (preenche_uf df,
   [ Print (Cabecalho Geografica); Plot (Barras (tabela_uf pd df));
     SaveFig "distribuicao_geografica.png"; Print TopEstados ]
   ++ map (fun ic : nat * (string * nat) =>
             Print (Estado (fst ic) (fst (snd ic)) (snd (snd ic)) (List.length df)))
          (enumerate (head 5 (tabela_uf pd df))),
   Ok (tabela_uf pd df)).
Proof.
  unfold analise_geografica. passos. colunas. rewrite length_map.
  unfold tabela_uf, tabela_uf_completa, fillna, coluna. rewrite !map_map.
  erewrite para_cada_imprime
    with (g := fun ic : nat * (string * nat) =>
                 Print (Estado (fst ic) (fst (snd ic)) (snd (snd ic)) (List.length df))).
  - cbn [app]. rewrite app_nil_r. reflexivity.
  - intros [i [uf n]] Hin. destruct df as [|r df]; [|reflexivity].
    exfalso. cbn [map] in Hin. rewrite value_counts_nil in Hin. exact Hin.
Qed.

Lemma analise_conteudo_corre (df : DataFrame) :
  analise_conteudo df =
  match tabela_palavras df with
  | [] => (df, [Print (Cabecalho Conteudo)], Raise ValueError)
  | _ :: _ =>
      (df,
       [ Print (Cabecalho Conteudo); Plot (BarrasHorizontais (tabela_palavras df));
         SaveFig "palavras_frequentes.png"; Print TopPalavras ]
       ++ map (fun ip : nat * (string * nat) =>
                 Print (PalavraChave (fst ip) (fst (snd ip)) (snd (snd ip))))
              (enumerate (firstn 10 (tabela_palavras df))),
       Ok {| top_palavras := tabela_palavras df;
             palavras := map fst (tabela_palavras df);
             frequencias := map snd (tabela_palavras df) |})
  end.
Proof.
  unfold analise_conteudo. passos.
  fold (palavras_filtradas df). fold (tabela_palavras df).
  destruct (tabela_palavras df) as [|x t]; [reflexivity|].
  erewrite para_cada_imprime
    with (g := fun ip : nat * (string * nat) =>
                 Print (PalavraChave (fst ip) (fst (snd ip)) (snd (snd ip)))).
  - cbn [app]. rewrite app_nil_r. reflexivity.
  - intros [i [w n]] _. reflexivity.
Qed.

Lemma analise_temporal_corre (df : DataFrame) :
  analise_temporal pd df =
  match idxmax (tabela_mensal pd df) with
  | None =>
      (converte_data pd df,
       [Print (Cabecalho Temporal); Plot (Linha (tabela_mensal pd df))],
       Raise ValueError)
  | Some k =>
      match index_of k (tabela_mensal pd df) with
      | None =>
          (converte_data pd df,
           [Print (Cabecalho Temporal); Plot (Linha (tabela_mensal pd df))],
           Raise ValueError)
      | Some i =>
          (converte_data pd df,
           [ Print (Cabecalho Temporal); Plot (Linha (tabela_mensal pd df));
             Plot (Anotacao i (maximo (tabela_mensal pd df)));
             SaveFig "evolucao_temporal.png";
             Print (MesComMaisSugestoes k (maximo (tabela_mensal pd df))) ],
           Ok {| sugestoes_por_mes := tabela_mensal pd df; mes_pico := k;
                 valor_pico := maximo (tabela_mensal pd df); pico_index := i |})
      end
  end.
Proof.
  unfold analise_temporal. passos. colunas.
  unfold tabela_mensal, to_datetime, coluna, converte_data. rewrite !map_map.
  match goal with |- context [idxmax ?t] => destruct (idxmax t) as [k|] end;
    [|reflexivity].
  match goal with |- context [index_of ?k ?t] => destruct (index_of k t) end;
    reflexivity.
Qed.

Lemma analise_demografica_corre (df : DataFrame) :
  analise_demografica pd df =
  (preenche_demografia df,
   [ Print (Cabecalho Demografica);
     Plot (Pizza (tabela_sexo pd df));
     Plot (Barras (tabela_faixa_etaria pd df));
     Plot (BarrasHorizontais (tabela_instrucao pd df));
     Plot (Pizza (tabela_estado_civil pd df));
     SaveFig "perfil_demografico.png";
     Print EstatisticasDetalhadas ]
   ++ match df with
      | [] => []
      | _ :: _ =>
          [ Print (Homens (com_sexo "MASCULINO" (preenche_demografia df)) (List.length df));
            Print (Mulheres (com_sexo "FEMININO" (preenche_demografia df)) (List.length df));
            Print (SexoNaoInformado (com_sexo NAO_INFORMADO (preenche_demografia df))) ]
      end,
   match df with
   | [] => Raise ZeroDivisionError
   | _ :: _ => Ok (tabelas_demograficas pd df)
   end).
Proof.
  unfold analise_demografica. passos. colunas. rewrite length_map.
  unfold tabelas_demograficas, tabela_sexo, tabela_faixa_etaria, tabela_instrucao,
    tabela_estado_civil, fillna, coluna, preenche_demografia. rewrite !map_map.
  destruct df as [|r df]; reflexivity.
Qed.

Lemma resumo_final_corre (df : DataFrame) :
  resumo_final pd df =
  match value_counts pd (coluna UF df), value_counts pd (coluna FAIXA_ETARIA df) with
  | estado :: _, faixa :: _ =>
      (df,
       [ Print (Cabecalho ResumoFinal);
         Print (TotalAnalisadas (List.length df));
         Print (ParticipacaoMasculina (com_sexo "MASCULINO" df) (List.length df));
         Print (ParticipacaoFeminina (com_sexo "FEMININO" df) (List.length df));
         Print (EstadoMaisEngajado (fst estado) (snd estado));
         Print (FaixaPredominante (fst faixa));
         Print (GraficoGerado "perfil_demografico.png");
         Print (GraficoGerado "distribuicao_geografica.png");
         Print (GraficoGerado "evolucao_temporal.png");
         Print (GraficoGerado "palavras_frequentes.png") ],
       Ok tt)
  | _, _ => (df, [Print (Cabecalho ResumoFinal)], Raise IndexError)
  end.
Proof.
  unfold resumo_final. passos.
  destruct (value_counts pd (coluna UF df)) as [|estado t] eqn:E; [reflexivity|].
  destruct (value_counts pd (coluna FAIXA_ETARIA df)) as [|faixa u]; [reflexivity|].
  destruct df as [|r df]; [|reflexivity].
  unfold coluna in E. cbn [map] in E. rewrite value_counts_nil in E. discriminate E.
Qed.

End Corridas.

(** ** The preliminary analysis *)

Lemma conta_nulos_le {A : Type} (f : A -> bool) (s : list A) :
  conta_nulos f s <= List.length s.
Proof. apply filter_length_le. Qed.

(** X4.  The preliminary analysis returns on every table, the empty one
    included, and leaves the table as it is.  It prints one line for each
    column that has a missing value, with the number of missing values and
    the number of rows it is divided by, and no line for a column that has
    none; no column is reported with more missing values than there are
    rows. *)
Theorem analise_preliminar_relata (df : DataFrame) :
  valor (analise_preliminar df) = Ok (isnull_sum df)
  /\ destino (analise_preliminar df) = df
  /\ (forall c n total,
        In (Print (Faltantes c n total)) (eventos (analise_preliminar df)) <->
        In (c, n) (isnull_sum df) /\ 0 < n /\ total = List.length df)
  /\ Forall (fun cf => snd cf <= List.length df) (isnull_sum df).
Proof.
  rewrite analise_preliminar_corre. unfold valor, destino, eventos. cbn [fst snd tl].
  split; [reflexivity|]. split; [reflexivity|]. split.
  - intros c n total. split.
    + intros [H|H]; [discriminate H|]. apply in_map_iff in H.
      destruct H as [[c' n'] [[= -> -> <-] Hin]]. apply filter_In in Hin.
      destruct Hin as [Hin Hpos]. apply Nat.ltb_lt in Hpos. tauto.
    + intros (Hin & Hpos & ->). right. apply in_map_iff. exists (c, n).
      split; [reflexivity|]. apply filter_In. split; [exact Hin|].
      now apply Nat.ltb_lt.
  - unfold isnull_sum, coluna.
    repeat (constructor; [cbn [snd]; etransitivity; [apply conta_nulos_le|];
                          now rewrite length_map|]).
    constructor.
Qed.

(** ** Numbered lines *)

Lemma In_combine_seq {A : Type} (a i : nat) (x : A) (l : list A) :
  In (i, x) (combine (seq a (List.length l)) l) <->
  a <= i /\ nth_error l (i - a) = Some x.
Proof.
  revert a. induction l as [|y l IH]; intros a; cbn [List.length seq combine].
  - split; [intros []|]. intros [_ H]. now destruct (i - a).
  - cbn [In]. rewrite IH. split.
    + intros [[= <- <-]|[Hle Hn]].
      * split; [lia|]. now rewrite Nat.sub_diag.
      * split; [lia|]. replace (i - a) with (S (i - S a)) by lia. exact Hn.
    + intros [Hle Hn]. destruct (Nat.eq_dec i a) as [->|Hne].
      * rewrite Nat.sub_diag in Hn. injection Hn as <-. now left.
      * right. split; [lia|]. replace (i - a) with (S (i - S a)) in Hn by lia.
        exact Hn.
Qed.

Lemma In_enumerate {A : Type} (i : nat) (x : A) (l : list A) :
  In (i, x) (enumerate l) <-> 1 <= i /\ nth_error l (i - 1) = Some x.
Proof. apply In_combine_seq. Qed.

Lemma In_enumerate_firstn {A : Type} (n i : nat) (x : A) (l : list A) :
  In (i, x) (enumerate (firstn n l)) <-> 1 <= i <= n /\ nth_error l (i - 1) = Some x.
Proof.
  rewrite In_enumerate, nth_error_firstn.
  destruct (Nat.ltb_spec (i - 1) n) as [Hlt|Hge]; split; intros [H1 H2].
  - split; [lia|exact H2].
  - split; [lia|exact H2].
  - discriminate H2.
  - lia.
Qed.

(** ** The geographic analysis *)

(** X5.  The geographic analysis returns on every table and always saves
    its figure.  After the ranking it prints one line for each of its first
    five rows and for no other: line [i] carries the region and the count of
    row [i] of the ranking, counted from 1, and the number of rows of the
    table, of which the count is a positive part. *)
Theorem analise_geografica_relata (pd : Pandas) (df : DataFrame) :
  valor (analise_geografica pd df) = Ok (tabela_uf pd df)
  /\ In (SaveFig "distribuicao_geografica.png") (eventos (analise_geografica pd df))
  /\ (forall i uf n total,
        In (Print (Estado i uf n total)) (eventos (analise_geografica pd df)) <->
        1 <= i <= 5 /\ nth_error (tabela_uf pd df) (i - 1) = Some (uf, n)
        /\ total = List.length df)
  /\ (forall i uf n total,
        In (Print (Estado i uf n total)) (eventos (analise_geografica pd df)) ->
        0 < n <= total).
Proof.
  assert (Hlinha : forall i uf n total,
    In (Print (Estado i uf n total)) (eventos (analise_geografica pd df)) <->
    1 <= i <= 5 /\ nth_error (tabela_uf pd df) (i - 1) = Some (uf, n)
    /\ total = List.length df).
  { intros i uf n total. rewrite analise_geografica_corre.
    unfold eventos. cbn [fst snd]. rewrite in_app_iff. split.
    - intros [H|H].
      + simpl in H. repeat (destruct H as [H|H]; [discriminate H|]). destruct H.
      + apply in_map_iff in H. destruct H as [[i' [uf' n']] [Heq Hin]].
        cbn [fst snd] in Heq. injection Heq as -> -> -> <-.
        apply In_enumerate_firstn in Hin. tauto.
    - intros (Hi & Hn & ->). right. apply in_map_iff. exists (i, (uf, n)).
      split; [reflexivity|]. now apply In_enumerate_firstn. }
  split; [apply analise_geografica_valor|]. split; [|split; [exact Hlinha|]].
  - rewrite analise_geografica_corre. unfold eventos. cbn [fst snd]. simpl. tauto.
  - intros i uf n total H. apply Hlinha in H. destruct H as (_ & Hn & ->).
    apply nth_error_In in Hn. apply firstn_incl in Hn.
    apply value_counts_In in Hn. destruct Hn as [-> Hpos]. split; [exact Hpos|].
    unfold ocorrencias.
    replace (List.length df)
      with (List.length (dropna (fillna NAO_INFORMADO (coluna UF df)))).
    + apply count_occ_bound.
    + rewrite dropna_fillna_length. unfold coluna. apply length_map.
Qed.

(** ** The order of the regions *)

(** X15.  The geographic analysis returns the first ten rows of the table of
    counts per region: rows of that table, with distinct regions, each with
    the number of rows of its region, the larger counts first.  The order
    among regions with equal counts is the one the library's sort leaves,
    which pandas does not document: for a sort that is stable, the regions
    of each count appear in the order in which they are first met in the
    column. *)
Theorem geografia_ordem_das_regioes (pd : Pandas) (df : DataFrame) :
  let ufs := dropna (fillna NAO_INFORMADO (coluna UF df)) in
  let completa := tabela_uf_completa pd df in
  let top := tabela_uf pd df in
  valor (analise_geografica pd df) = Ok top
  /\ top = firstn 10 completa
  /\ incl top completa
  /\ Sorted decrescente top
  /\ NoDup (chaves top)
  /\ (forall k n, In (k, n) completa <-> n = ocorrencias k ufs /\ 0 < n)
  /\ (estavel pd ->
      forall c, exists resto,
        filter (fun k => ocorrencias k ufs =? c) (distintos ufs)
        = chaves (filter (com_contagem c) top) ++ resto).
Proof.
  intros ufs completa top.
  split; [apply analise_geografica_valor|].
  split; [reflexivity|].
  split; [apply firstn_incl|].
  split; [apply firstn_sorted; apply sort_values_desc|].
  split.
  { unfold top, tabela_uf, head, chaves. rewrite <- firstn_map.
    apply NoDup_firstn. apply value_counts_NoDup. }
  split; [intros k n; apply value_counts_In|].
  intros Hest c.
  exists (chaves (filter (com_contagem c) (skipn 10 completa))).
  unfold chaves. rewrite <- map_app. unfold top, tabela_uf, head.
  rewrite <- filter_firstn. unfold completa, tabela_uf_completa, value_counts.
  rewrite Hest. fold ufs. fold (chaves (filter (com_contagem c) (conta ufs))).
  rewrite (chaves_filter (fun k => ocorrencias k ufs)).
  - now rewrite chaves_conta.
  - apply Forall_forall. intros [k n] Hin. apply In_conta in Hin. simpl. tauto.
Qed.

(** ** The final summary *)

Lemma dropna_nil (s : list (option string)) :
  dropna s = [] <-> (forall c, In c s -> c = None).
Proof.
  split; [|apply dropna_nulos].
  induction s as [|[x|] s IH]; simpl; intros H c Hc; [destruct Hc|discriminate H|].
  destruct Hc as [<-|Hc]; [reflexivity|now apply IH].
Qed.

Lemma value_counts_vazia (pd : Pandas) (s : list (option string)) :
  value_counts pd s = [] <-> (forall c, In c s -> c = None).
Proof.
  rewrite <- dropna_nil. split; intros H.
  - pose proof (value_counts_soma pd s) as Hs. rewrite H in Hs.
    destruct (dropna s); [reflexivity|discriminate Hs].
  - unfold value_counts. rewrite H. apply Permutation_nil. symmetry.
    apply sort_values_perm.
Qed.

Lemma coluna_nula {A : Type} (c : Registro -> option A) (df : DataFrame) :
  (forall x, In x (coluna c df) -> x = None) <-> (forall r, In r df -> c r = None).
Proof.
  unfold coluna. split.
  - intros H r Hr. apply H. now apply in_map.
  - intros H x Hx. apply in_map_iff in Hx. destruct Hx as [r [<- Hr]]. now apply H.
Qed.

(** The first row of a table sorted by pandas holds the largest count. *)
Lemma value_counts_primeiro (pd : Pandas) (s : list (option string))
    (x : string * nat) (t : Serie) :
  value_counts pd s = x :: t ->
  snd x = ocorrencias (fst x) (dropna s)
  /\ forall k, ocorrencias k (dropna s) <= snd x.
Proof.
  intros E. destruct x as [k0 n0]. cbn [fst snd].
  assert (Hin : In (k0, n0) (value_counts pd s)) by (rewrite E; now left).
  apply value_counts_In in Hin. split; [tauto|]. intros k.
  destruct (ocorrencias k (dropna s)) as [|m] eqn:Ek; [lia|].
  assert (Hk : In (k, S m) (value_counts pd s)).
  { apply value_counts_In. split; [now rewrite Ek|lia]. }
  rewrite E in Hk. destruct Hk as [[= _ <-]|Hk]; [lia|].
  pose proof (sort_values_desc pd (conta (dropna s))) as Hs.
  fold (value_counts pd s) in Hs. rewrite E in Hs.
  apply Sorted_StronglySorted in Hs; [|exact decrescente_trans].
  inversion Hs as [|? ? _ Hall]; subst. rewrite Forall_forall in Hall.
  apply (Hall (k, S m) Hk).
Qed.

(** X6.  The final summary never changes the table.  It raises
    [IndexError] exactly when the UF column or the age-bracket column of the
    table it is given holds no value at all, before printing anything but
    its heading; on every other table it returns, and the division by the
    number of rows cannot fail.  The region and the bracket it names are
    those that occur most often among the values present, missing values
    not counted. *)
Theorem resumo_final_erros (pd : Pandas) (df : DataFrame) :
  destino (resumo_final pd df) = df
  /\ (valor (resumo_final pd df) = Raise IndexError <->
      (forall r, In r df -> UF r = None)
      \/ (forall r, In r df -> FAIXA_ETARIA r = None))
  /\ (valor (resumo_final pd df) = Raise IndexError ->
      eventos (resumo_final pd df) = [Print (Cabecalho ResumoFinal)])
  /\ (valor (resumo_final pd df) <> Raise IndexError ->
      valor (resumo_final pd df) = Ok tt)
  /\ (forall estado n,
        In (Print (EstadoMaisEngajado estado n)) (eventos (resumo_final pd df)) ->
        n = ocorrencias estado (dropna (coluna UF df))
        /\ forall k, ocorrencias k (dropna (coluna UF df)) <= n)
  /\ (forall faixa,
        In (Print (FaixaPredominante faixa)) (eventos (resumo_final pd df)) ->
        forall k, ocorrencias k (dropna (coluna FAIXA_ETARIA df))
                  <= ocorrencias faixa (dropna (coluna FAIXA_ETARIA df))).
Proof.
  rewrite resumo_final_corre.
  rewrite <- !coluna_nula, <- !(value_counts_vazia pd).
  destruct (value_counts pd (coluna UF df)) as [|e t] eqn:Eu.
  - unfold destino, valor, eventos; cbn [fst snd].
    split; [reflexivity|]. split; [|split; [|split; [|split]]].
    + split; [now left|reflexivity].
    + reflexivity.
    + congruence.
    + intros estado n [H|[]]. discriminate H.
    + intros faixa [H|[]]. discriminate H.
  - destruct (value_counts pd (coluna FAIXA_ETARIA df)) as [|f u] eqn:Ef.
    + unfold destino, valor, eventos; cbn [fst snd].
      split; [reflexivity|]. split; [|split; [|split; [|split]]].
      * split; [now right|reflexivity].
      * reflexivity.
      * congruence.
      * intros estado n [H|[]]. discriminate H.
      * intros faixa [H|[]]. discriminate H.
    + unfold destino, valor, eventos; cbn [fst snd].
      split; [reflexivity|]. split; [|split; [|split; [|split]]].
      * split; [discriminate|]. intros [H|H]; discriminate H.
      * discriminate.
      * reflexivity.
      * intros estado n H. simpl in H.
        repeat (destruct H as [H|H]; [try discriminate H|]); [|destruct H].
        injection H as <- <-. apply (value_counts_primeiro pd _ e t Eu).
      * intros faixa H. simpl in H.
        repeat (destruct H as [H|H]; [try discriminate H|]); [|destruct H].
        injection H as <-.
        destruct (value_counts_primeiro pd _ f u Ef) as [H1 H2]. now rewrite <- H1.
Qed.

(** ** The main block on a file that is read *)

Lemma principal_analises (pd : Pandas) (n : nat) (df : DataFrame) :
  principal pd (Legivel n df) =
  (Some (destino (analises pd df)),
   [Print Iniciando; Print Analisando]
   ++ [Print CarregadoComSucesso; Print (TotalRegistros (List.length df));
       Print (TotalColunas n)]
   ++ eventos (analises pd df),
   valor (analises pd df)).
Proof.
  unfold principal. cbn [carregar_dados]. fold (analises pd).
  now destruct (analises pd df) as [[d t] r].
Qed.

Lemma eventos_bind_eq {A B : Type} (m : M A) (f : A -> M B) (df : DataFrame) :
  eventos (bind m f df) =
  eventos (m df)
  ++ match valor (m df) with
     | Ok a => eventos (f a (destino (m df)))
     | Raise _ => []
     end.
Proof.
  unfold bind, eventos, valor, destino.
  destruct (m df) as [[d1 t1] [a|e]]; cbn [fst snd]; [|now rewrite app_nil_r].
  now destruct (f a d1) as [[d2 t2] r].
Qed.

Lemma figuras_app (t u : list evento) : figuras (t ++ u) = figuras t ++ figuras u.
Proof.
  induction t as [|[m|d|a] t IH]; cbn [app figuras]; [reflexivity| | |];
    now rewrite IH.
Qed.

Lemma figuras_print {A : Type} (h : A -> evento) (l : list A) :
  (forall x, exists m, h x = Print m) -> figuras (map h l) = [].
Proof.
  intros H. induction l as [|x l IH]; [reflexivity|].
  cbn [map figuras]. destruct (H x) as [m ->]. exact IH.
Qed.

Section Estados.

Variable pd : Pandas.

Lemma tabela_uf_completa_preenchida (df : DataFrame) :
  tabela_uf_completa pd (preenche_demografia df) = tabela_uf_completa pd df.
Proof.
  unfold tabela_uf_completa, preenche_demografia, fillna, coluna.
  now rewrite !map_map.
Qed.

Lemma tabela_mensal_preenchida (df : DataFrame) :
  tabela_mensal pd (preenche_uf (preenche_demografia df)) = tabela_mensal pd df.
Proof.
  unfold tabela_mensal, preenche_uf, preenche_demografia, to_datetime, coluna.
  now rewrite !map_map.
Qed.

Lemma tabela_palavras_convertida (df : DataFrame) :
  tabela_palavras (converte_data pd (preenche_uf (preenche_demografia df)))
  = tabela_palavras df.
Proof.
  unfold tabela_palavras, palavras_filtradas, converte_data, preenche_uf,
    preenche_demografia, coluna.
  now rewrite !map_map.
Qed.

Lemma coluna_UF_final (df : DataFrame) :
  coluna UF (converte_data pd (preenche_uf (preenche_demografia df)))
  = fillna NAO_INFORMADO (coluna UF df).
Proof.
  unfold converte_data, preenche_uf, preenche_demografia, fillna, coluna.
  now rewrite !map_map.
Qed.

Lemma coluna_FAIXA_final (df : DataFrame) :
  coluna FAIXA_ETARIA (converte_data pd (preenche_uf (preenche_demografia df)))
  = fillna NAO_INFORMADO (coluna FAIXA_ETARIA df).
Proof.
  unfold converte_data, preenche_uf, preenche_demografia, fillna, coluna.
  now rewrite !map_map.
Qed.

Lemma value_counts_fillna_cheia (c : Registro -> option string) (df : DataFrame) :
  df <> [] -> value_counts pd (fillna NAO_INFORMADO (coluna c df)) <> [].
Proof.
  intros Hne H. pose proof (value_counts_soma pd (fillna NAO_INFORMADO (coluna c df))) as Hs.
  rewrite H, dropna_fillna_length in Hs. unfold coluna in Hs. rewrite length_map in Hs.
  destruct df; [congruence|discriminate Hs].
Qed.

End Estados.

Lemma bind_ok {A B : Type} (m : M A) (f : A -> M B) (df d1 : DataFrame)
    (t1 : list evento) (a : A) :
  m df = (d1, t1, Ok a) ->
  bind m f df = (destino (f a d1), t1 ++ eventos (f a d1), valor (f a d1)).
Proof.
  intros E. unfold bind. rewrite E. now destruct (f a d1) as [[d2 t2] r].
Qed.

Lemma bind_raise {A B : Type} (m : M A) (f : A -> M B) (df d1 : DataFrame)
    (t1 : list evento) (e : excecao) :
  m df = (d1, t1, Raise e) -> bind m f df = (d1, t1, Raise e).
Proof. intros E. unfold bind. now rewrite E. Qed.

Section Desfecho.

Variable pd : Pandas.

Let final (df : DataFrame) : DataFrame :=
  converte_data pd (preenche_uf (preenche_demografia df)).

Lemma analises_vazia :
  destino (analises pd []) = []
  /\ valor (analises pd []) = Raise ZeroDivisionError
  /\ figuras (eventos (analises pd [])) = ["perfil_demografico.png"].
Proof. repeat split. Qed.

Lemma analise_demografica_cheia (df : DataFrame) :
  df <> [] ->
  analise_demografica pd df =
  (preenche_demografia df,
   [ Print (Cabecalho Demografica);
     Plot (Pizza (tabela_sexo pd df));
     Plot (Barras (tabela_faixa_etaria pd df));
     Plot (BarrasHorizontais (tabela_instrucao pd df));
     Plot (Pizza (tabela_estado_civil pd df));
     SaveFig "perfil_demografico.png";
     Print EstatisticasDetalhadas;
     Print (Homens (com_sexo "MASCULINO" (preenche_demografia df)) (List.length df));
     Print (Mulheres (com_sexo "FEMININO" (preenche_demografia df)) (List.length df));
     Print (SexoNaoInformado (com_sexo NAO_INFORMADO (preenche_demografia df))) ],
   Ok (tabelas_demograficas pd df)).
Proof.
  intros Hne. rewrite analise_demografica_corre. destruct df; [congruence|reflexivity].
Qed.

Lemma analises_sem_data (df : DataFrame) :
  df <> [] -> tem_data pd df = false ->
  destino (analises pd df) = final df
  /\ valor (analises pd df) = Raise ValueError
  /\ figuras (eventos (analises pd df)) =
     ["perfil_demografico.png"; "distribuicao_geografica.png"].
Proof.
  intros Hne Hdata. unfold analises.
  rewrite (bind_ok _ _ _ _ _ _ (analise_preliminar_corre df)).
  rewrite (bind_ok _ _ _ _ _ _ (analise_demografica_cheia df Hne)).
  rewrite (bind_ok _ _ _ _ _ _ (analise_geografica_corre pd _)).
  assert (E : analise_temporal pd (preenche_uf (preenche_demografia df)) =
              (final df,
               [Print (Cabecalho Temporal); Plot (Linha [])], Raise ValueError)).
  { rewrite analise_temporal_corre, tabela_mensal_preenchida.
    apply tabela_mensal_nil in Hdata. rewrite Hdata. reflexivity. }
  rewrite (bind_raise _ _ _ _ _ _ E).
  unfold destino, valor, eventos. cbn [fst snd].
  split; [reflexivity|]. split; [reflexivity|].
  rewrite !figuras_app. cbn [figuras].
  rewrite !figuras_print by (intros; eexists; reflexivity). reflexivity.
Qed.

Lemma analise_temporal_com_data (df : DataFrame) :
  tem_data pd df = true ->
  exists k i,
    analise_temporal pd (preenche_uf (preenche_demografia df)) =
    (final df,
     [ Print (Cabecalho Temporal); Plot (Linha (tabela_mensal pd df));
       Plot (Anotacao i (maximo (tabela_mensal pd df)));
       SaveFig "evolucao_temporal.png";
       Print (MesComMaisSugestoes k (maximo (tabela_mensal pd df))) ],
     Ok {| sugestoes_por_mes := tabela_mensal pd df; mes_pico := k;
           valor_pico := maximo (tabela_mensal pd df); pico_index := i |}).
Proof.
  intros Hdata. apply tem_data_tabela in Hdata.
  destruct (pico_da_tabela (tabela_mensal pd df)
              (proj1 (groupby_size_bem_formada _)) Hdata)
    as (k & v & l1 & l2 & Ek & _ & _ & _ & Hi & _).
  exists k, (List.length l1).
  rewrite analise_temporal_corre, tabela_mensal_preenchida.
  unfold idxmax. rewrite Ek. cbn [option_map fst]. rewrite Hi. reflexivity.
Qed.

Lemma analises_sem_palavras (df : DataFrame) :
  df <> [] -> tem_data pd df = true -> palavras_filtradas df = [] ->
  destino (analises pd df) = final df
  /\ valor (analises pd df) = Raise ValueError
  /\ figuras (eventos (analises pd df)) =
     ["perfil_demografico.png"; "distribuicao_geografica.png";
      "evolucao_temporal.png"].
Proof.
  intros Hne Hdata Hpal. unfold analises.
  destruct (analise_temporal_com_data df Hdata) as (k & i & Et).
  rewrite (bind_ok _ _ _ _ _ _ (analise_preliminar_corre df)).
  rewrite (bind_ok _ _ _ _ _ _ (analise_demografica_cheia df Hne)).
  rewrite (bind_ok _ _ _ _ _ _ (analise_geografica_corre pd _)).
  rewrite (bind_ok _ _ _ _ _ _ Et).
  assert (E : analise_conteudo (final df) =
              (final df, [Print (Cabecalho Conteudo)], Raise ValueError)).
  { rewrite analise_conteudo_corre. unfold final.
    rewrite tabela_palavras_convertida.
    apply tabela_palavras_nil in Hpal. now rewrite Hpal. }
  rewrite (bind_raise _ _ _ _ _ _ E).
  unfold destino, valor, eventos. cbn [fst snd].
  split; [reflexivity|]. split; [reflexivity|].
  rewrite !figuras_app. cbn [figuras].
  rewrite !figuras_print by (intros; eexists; reflexivity). reflexivity.
Qed.

Lemma analises_completas (df : DataFrame) :
  df <> [] -> tem_data pd df = true -> palavras_filtradas df <> [] ->
  destino (analises pd df) = final df
  /\ valor (analises pd df) = Ok tt
  /\ figuras (eventos (analises pd df)) =
     ["perfil_demografico.png"; "distribuicao_geografica.png";
      "evolucao_temporal.png"; "palavras_frequentes.png"]
  /\ exists estado n,
       In (Print (EstadoMaisEngajado estado n)) (eventos (analises pd df))
       /\ nth_error (tabela_uf pd df) 0 = Some (estado, n).
Proof.
  intros Hne Hdata Hpal. unfold analises.
  destruct (analise_temporal_com_data df Hdata) as (k & i & Et).
  rewrite (bind_ok _ _ _ _ _ _ (analise_preliminar_corre df)).
  rewrite (bind_ok _ _ _ _ _ _ (analise_demografica_cheia df Hne)).
  rewrite (bind_ok _ _ _ _ _ _ (analise_geografica_corre pd _)).
  rewrite (bind_ok _ _ _ _ _ _ Et).
  assert (Ec : exists t r, analise_conteudo (final df) = (final df, t, Ok r)
                           /\ figuras t = ["palavras_frequentes.png"]).
  { rewrite analise_conteudo_corre. unfold final.
    rewrite tabela_palavras_convertida.
    destruct (tabela_palavras df) as [|x u] eqn:E;
      [apply tabela_palavras_nil in E; contradiction|].
    eexists. eexists. split; [reflexivity|].
    rewrite figuras_app. cbn [figuras].
    rewrite figuras_print by (intros; eexists; reflexivity). reflexivity. }
  destruct Ec as (tc & rc & Ec & Fc).
  rewrite (bind_ok _ _ _ _ _ _ Ec).
  assert (Er : exists estado u faixa t,
    tabela_uf_completa pd df = estado :: u
    /\ resumo_final pd (final df) =
       (final df,
        Print (Cabecalho ResumoFinal)
        :: Print (TotalAnalisadas (List.length (final df)))
        :: Print (ParticipacaoMasculina (com_sexo "MASCULINO" (final df))
                    (List.length (final df)))
        :: Print (ParticipacaoFeminina (com_sexo "FEMININO" (final df))
                    (List.length (final df)))
        :: Print (EstadoMaisEngajado (fst estado) (snd estado))
        :: Print (FaixaPredominante faixa) :: t, Ok tt)
    /\ figuras t = []).
  { rewrite resumo_final_corre. unfold final.
    rewrite coluna_UF_final, coluna_FAIXA_final.
    fold (tabela_uf_completa pd df).
    pose proof (value_counts_fillna_cheia pd UF df Hne) as Hu.
    pose proof (value_counts_fillna_cheia pd FAIXA_ETARIA df Hne) as Hf.
    fold (tabela_uf_completa pd df) in Hu.
    destruct (tabela_uf_completa pd df) as [|estado u]; [congruence|].
    destruct (value_counts pd (fillna NAO_INFORMADO (coluna FAIXA_ETARIA df)))
      as [|faixa w]; [congruence|].
    exists estado, u, (fst faixa). eexists. split; [reflexivity|].
    split; reflexivity. }
  destruct Er as (estado & u & faixa & tr & Eu & Er & Fr).
  rewrite (bind_ok _ _ _ _ _ _ Er).
  unfold bind, print, emite, destino, valor, eventos. cbn [fst snd].
  split; [reflexivity|]. split; [reflexivity|]. split.
  - rewrite !figuras_app. cbn [figuras]. rewrite ?figuras_app.
    rewrite !figuras_print by (intros; eexists; reflexivity).
    rewrite Fc, Fr. reflexivity.
  - exists (fst estado), (snd estado). split.
    + rewrite !in_app_iff. do 5 right. left. simpl. tauto.
    + unfold tabela_uf, head. rewrite Eu. now destruct estado.
Qed.

(** X7.  On a file that is read, how far the main block gets is decided
    by the table.  With no rows it ends in [ZeroDivisionError] after the
    demographic figure is saved; with rows but no date that can be read, in
    [ValueError] after two figures; with dates but no word left to count,
    in [ValueError] after three; otherwise it completes with the four
    figures saved, and the region its summary names is the first of the
    geographic ranking.  In every case the table is left with its
    categorical columns filled and its dates converted. *)
Theorem principal_desfecho (n : nat) (df : DataFrame) :
  let x := principal pd (Legivel n df) in
  destino x = Some (converte_data pd (preenche_uf (preenche_demografia df)))
  /\ (df = [] ->
      valor x = Raise ZeroDivisionError
      /\ figuras (eventos x) = ["perfil_demografico.png"])
  /\ (df <> [] -> tem_data pd df = false ->
      valor x = Raise ValueError
      /\ figuras (eventos x) =
         ["perfil_demografico.png"; "distribuicao_geografica.png"])
  /\ (df <> [] -> tem_data pd df = true -> palavras_filtradas df = [] ->
      valor x = Raise ValueError
      /\ figuras (eventos x) =
         ["perfil_demografico.png"; "distribuicao_geografica.png";
          "evolucao_temporal.png"])
  /\ (df <> [] -> tem_data pd df = true -> palavras_filtradas df <> [] ->
      valor x = Ok tt
      /\ figuras (eventos x) =
         ["perfil_demografico.png"; "distribuicao_geografica.png";
          "evolucao_temporal.png"; "palavras_frequentes.png"]
      /\ exists estado k,
           In (Print (EstadoMaisEngajado estado k)) (eventos x)
           /\ nth_error (tabela_uf pd df) 0 = Some (estado, k)).
Proof.
  intros x. unfold x. rewrite principal_analises.
  unfold destino at 1, valor, eventos. cbn [fst snd].
  assert (Hfig : forall t, figuras
    ([Print Iniciando; Print Analisando]
     ++ [Print CarregadoComSucesso; Print (TotalRegistros (List.length df));
         Print (TotalColunas n)] ++ t) = figuras t) by reflexivity.
  split; [|split; [|split; [|split]]].
  - f_equal. destruct df as [|r df0] eqn:Edf; [reflexivity|]. rewrite <- Edf.
    assert (Hne : df <> []) by (rewrite Edf; discriminate).
    destruct (tem_data pd df) eqn:Hdata.
    + destruct (palavras_filtradas df) eqn:Hpal.
      * apply (analises_sem_palavras df Hne Hdata Hpal).
      * apply (analises_completas df Hne Hdata). congruence.
    + apply (analises_sem_data df Hne Hdata).
  - intros ->. rewrite Hfig. split; reflexivity.
  - intros Hne Hdata. rewrite Hfig.
    destruct (analises_sem_data df Hne Hdata) as (_ & Hv & Hf). now split.
  - intros Hne Hdata Hpal. rewrite Hfig.
    destruct (analises_sem_palavras df Hne Hdata Hpal) as (_ & Hv & Hf). now split.
  - intros Hne Hdata Hpal. rewrite Hfig.
    destruct (analises_completas df Hne Hdata Hpal) as (_ & Hv & Hf & e & k & Hin & Hn).
    split; [exact Hv|]. split; [exact Hf|]. exists e, k. split; [|exact Hn].
    apply in_or_app. right. apply in_or_app. right. exact Hin.
Qed.

End Desfecho.

(** ** The word pattern *)

Lemma letra_palavra_char (c : ascii) :
  Latin1.letra c = true -> Latin1.palavra_char c = true.
Proof.
  destruct c as [[] [] [] [] [] [] [] []]; vm_compute; intros H;
    first [reflexivity | discriminate H].
Qed.

Lemma sequencia_nth (s : Caracteres) (i : nat) :
  i < sequencia s -> exists c, nth_error s i = Some c /\ Latin1.letra c = true.
Proof.
  revert i. induction s as [|c s IH]; intros i Hi; cbn [sequencia] in Hi; [lia|].
  destruct (Latin1.letra c) eqn:E; [|lia].
  destruct i as [|i]; [now exists c|]. apply IH. lia.
Qed.

Lemma sequencia_le (s : Caracteres) : sequencia s <= List.length s.
Proof.
  induction s as [|c s IH]; cbn [sequencia List.length]; [lia|].
  destruct (Latin1.letra c); lia.
Qed.

Lemma sequencia_fim (s : Caracteres) (c : ascii) :
  nth_error s (sequencia s) = Some c -> Latin1.letra c = false.
Proof.
  induction s as [|a s IH]; cbn [sequencia]; [discriminate|].
  destruct (Latin1.letra a) eqn:E; [exact IH|]. now intros [= <-].
Qed.

(** Giving letters back never helps: between two letters of the run there
    is no word boundary. *)
Lemma recua_dentro (k : nat) (s : Caracteres) : k < sequencia s -> recua k s = None.
Proof.
  induction k as [|k IH]; intros Hk; cbn [recua]; [reflexivity|].
  destruct (4 <=? S k); [|reflexivity].
  destruct (sequencia_nth s k) as (a & -> & Ha); [lia|].
  destruct (sequencia_nth s (S k)) as (b & -> & Hb); [lia|].
  unfold fronteira, e_palavra.
  rewrite (letra_palavra_char a Ha), (letra_palavra_char b Hb). cbn [xorb].
  apply IH. lia.
Qed.

(** The pattern at one position, decided by what is before the run of
    letters, how long it is, and what is after it. *)
Lemma casa_decidida (antes : option ascii) (s : Caracteres) :
  casa antes s =
  if negb (e_palavra antes) && (4 <=? sequencia s)
     && negb (e_palavra (nth_error s (sequencia s)))
  then Some (firstn (sequencia s) s)
  else None.
Proof.
  unfold casa. remember (sequencia s) as n eqn:En.
  destruct (Nat.leb_spec 4 n) as [H4|H4].
  - assert (Hprimeira : e_palavra (nth_error s 0) = true).
    { destruct (sequencia_nth s 0) as (a & -> & Ha); [lia|].
      apply (letra_palavra_char a Ha). }
    assert (Hultima : e_palavra (nth_error s (n - 1)) = true).
    { destruct (sequencia_nth s (n - 1)) as (a & -> & Ha); [lia|].
      apply (letra_palavra_char a Ha). }
    assert (Hrecua : recua n s =
                     if e_palavra (nth_error s n) then None else Some (firstn n s)).
    { destruct n as [|n']; [lia|]. cbn [recua].
      replace (S n' - 1) with n' in Hultima by lia.
      destruct (Nat.leb_spec 4 (S n')); [|lia].
      unfold fronteira. rewrite Hultima.
      destruct (e_palavra (nth_error s (S n'))); cbn [xorb negb]; [|reflexivity].
      apply recua_dentro. lia. }
    unfold fronteira. rewrite Hprimeira, Hrecua.
    now destruct (e_palavra antes), (e_palavra (nth_error s n)).
  - assert (Hnao : recua n s = None).
    { destruct n as [|[|[|[|n']]]]; try reflexivity. lia. }
    rewrite Hnao, andb_false_r. now destruct (fronteira antes (nth_error s 0)).
Qed.

(** X8.  At a position the pattern matches exactly when a run of four or
    more letters of the class starts there with no word character before it
    and none after it, and what it matches is the whole run: a run that
    touches a digit, an underscore or a letter outside the class is passed
    over, never cut to fit. *)
Theorem casa_sequencia_inteira (antes : option ascii) (s m : Caracteres) :
  casa antes s = Some m <->
  e_palavra antes = false
  /\ 4 <= sequencia s
  /\ e_palavra (nth_error s (sequencia s)) = false
  /\ m = firstn (sequencia s) s.
Proof.
  rewrite casa_decidida.
  destruct (e_palavra antes), (Nat.leb_spec 4 (sequencia s)) as [H4|H4],
    (e_palavra (nth_error s (sequencia s))); cbn [negb andb]; split;
    try discriminate; try (intros (? & ? & ? & ?); first [discriminate | lia]).
  - intros [= <-]. repeat split. exact H4.
  - intros (_ & _ & _ & ->). reflexivity.
Qed.

(** ** The words of each suggestion *)

Lemma sequencia_app_espaco (s s2 : Caracteres) :
  sequencia (s ++ espaco :: s2) = sequencia s.
Proof.
  induction s as [|c s IH]; cbn [app sequencia]; [reflexivity|].
  now rewrite IH.
Qed.

Lemma e_palavra_app_espaco (s s2 : Caracteres) :
  e_palavra (nth_error (s ++ espaco :: s2) (sequencia s)) =
  e_palavra (nth_error s (sequencia s)).
Proof.
  pose proof (sequencia_le s) as Hle.
  destruct (Nat.eq_dec (sequencia s) (List.length s)) as [E|E].
  - rewrite E, nth_error_app2, Nat.sub_diag by lia. cbn [nth_error].
    now rewrite (proj2 (nth_error_None s (List.length s))) by lia.
  - now rewrite nth_error_app1 by lia.
Qed.

Lemma casa_app_espaco (antes : option ascii) (s s2 : Caracteres) :
  casa antes (s ++ espaco :: s2) = casa antes s.
Proof.
  rewrite !casa_decidida, sequencia_app_espaco, e_palavra_app_espaco.
  rewrite firstn_app.
  replace (sequencia s - List.length s) with 0 by (pose proof (sequencia_le s); lia).
  cbn [firstn]. now rewrite app_nil_r.
Qed.

Lemma casa_antes (a b : option ascii) (s : Caracteres) :
  e_palavra a = e_palavra b -> casa a s = casa b s.
Proof. intros E. now rewrite !casa_decidida, E. Qed.

Lemma findall__antes (a b : option ascii) (salta : nat) (s : Caracteres) :
  e_palavra a = e_palavra b -> findall_ a salta s = findall_ b salta s.
Proof.
  intros E. destruct s as [|c s]; [reflexivity|]. cbn [findall_].
  destruct salta; [|reflexivity]. now rewrite (casa_antes a b _ E).
Qed.

Lemma casa_length (antes : option ascii) (s m : Caracteres) :
  casa antes s = Some m -> List.length m <= List.length s.
Proof.
  rewrite casa_decidida. destruct (_ && _); [|discriminate].
  intros [= <-]. rewrite length_firstn. lia.
Qed.

Lemma findall__app_espaco (s1 s2 : Caracteres) (antes : option ascii) (salta : nat) :
  salta <= List.length s1 ->
  findall_ antes salta (s1 ++ espaco :: s2) =
  findall_ antes salta s1 ++ findall_ None 0 s2.
Proof.
  revert antes salta. induction s1 as [|c s1 IH]; intros antes salta Hs.
  - assert (salta = 0) by (simpl in Hs; lia). subst salta.
    cbn [app findall_]. rewrite casa_decidida. cbn [sequencia].
    change (Latin1.letra espaco) with false. cbv iota.
    rewrite andb_false_r. cbn [andb]. apply findall__antes. reflexivity.
  - cbn [app findall_]. destruct salta as [|k].
    + change (c :: s1 ++ espaco :: s2) with ((c :: s1) ++ espaco :: s2).
      rewrite casa_app_espaco.
      destruct (casa antes (c :: s1)) as [m|] eqn:E.
      * cbn [app]. f_equal. apply IH. apply casa_length in E. simpl in E. lia.
      * apply IH. lia.
    + apply IH. simpl in Hs. lia.
Qed.

Lemma list_ascii_of_string_app (a b : string) :
  list_ascii_of_string (a ++ b) = list_ascii_of_string a ++ list_ascii_of_string b.
Proof. induction a as [|c a IH]; cbn; [reflexivity|now rewrite IH]. Qed.

Lemma string_of_list_ascii_app (l1 l2 : list ascii) :
  string_of_list_ascii (l1 ++ l2) = (string_of_list_ascii l1 ++ string_of_list_ascii l2)%string.
Proof. induction l1 as [|c l1 IH]; cbn; [reflexivity|now rewrite IH]. Qed.

Lemma lower_app (a b : string) : lower (a ++ b) = (lower a ++ lower b)%string.
Proof.
  unfold lower. now rewrite list_ascii_of_string_app, map_app, string_of_list_ascii_app.
Qed.

Lemma findall_espaco (a b : string) :
  findall (a ++ " " ++ b) = findall a ++ findall b.
Proof.
  unfold findall. rewrite list_ascii_of_string_app. cbn [append list_ascii_of_string].
  fold espaco. rewrite findall__app_espaco by lia. apply map_app.
Qed.

Lemma findall_join (textos : list string) :
  findall (lower (join textos)) = flat_map (fun t => findall (lower t)) textos.
Proof.
  unfold join. induction textos as [|x l IH]; [reflexivity|].
  destruct l as [|y l].
  - cbn [String.concat flat_map]. now rewrite app_nil_r.
  - change (String.concat " " (x :: y :: l))
      with (x ++ " " ++ String.concat " " (y :: l))%string.
    rewrite !lower_app. change (lower " ") with " ".
    rewrite findall_espaco, IH. reflexivity.
Qed.

Lemma filter_flat_map {A B : Type} (f : B -> bool) (g : A -> list B) (l : list A) :
  filter f (flat_map g l) = flat_map (fun x => filter f (g x)) l.
Proof.
  induction l as [|x l IH]; cbn [flat_map]; [reflexivity|].
  now rewrite filter_app, IH.
Qed.

Lemma dropna_app (s1 s2 : list (option string)) :
  dropna (s1 ++ s2) = dropna s1 ++ dropna s2.
Proof.
  induction s1 as [|[x|] s1 IH]; cbn [app dropna]; [reflexivity| |exact IH].
  now rewrite IH.
Qed.

(** X9.  Joining the suggestions with a space never makes a word out of
    the end of one and the start of the next: the words the content analysis
    counts are the words of each suggestion taken alone, one suggestion
    after the other.  So the words of two tables put together are the words
    of the first followed by those of the second, and the counts add up. *)
Theorem palavras_por_sugestao (df df' : DataFrame) :
  palavras_filtradas df =
    flat_map palavras_do_texto (dropna (coluna SUGESTAO_TEXTO df))
  /\ palavras_filtradas (df ++ df') = palavras_filtradas df ++ palavras_filtradas df'
  /\ forall w,
       ocorrencias w (palavras_filtradas (df ++ df')) =
       ocorrencias w (palavras_filtradas df) + ocorrencias w (palavras_filtradas df').
Proof.
  assert (H : forall d, palavras_filtradas d =
                        flat_map palavras_do_texto (dropna (coluna SUGESTAO_TEXTO d))).
  { intros d. unfold palavras_filtradas. rewrite findall_join. apply filter_flat_map. }
  assert (Happ : palavras_filtradas (df ++ df') =
                 palavras_filtradas df ++ palavras_filtradas df').
  { rewrite !H. unfold coluna. now rewrite map_app, dropna_app, flat_map_app. }
  split; [apply H|]. split; [exact Happ|].
  intros w. rewrite Happ. unfold ocorrencias. apply count_occ_app.
Qed.

(** ** The content analysis *)

Lemma ordena_positivo (l : list string) :
  Forall (fun x => 0 < snd x) (ordena (conta l)).
Proof.
  apply Forall_forall. intros [w n] H.
  apply (Permutation_in _ (ordena_perm _)) in H. apply In_conta in H.
  cbn [snd]. tauto.
Qed.

(** X10.  The table of the content analysis has at most fifteen rows, no
    word twice, and every count positive; its counts add up to at most the
    number of words kept, and to exactly that number when no more than
    fifteen different words are kept.  The figure is saved exactly when some
    word is kept, and the key-word lines printed are the first ten rows of
    the table, numbered from 1. *)
Theorem analise_conteudo_relata (df : DataFrame) :
  List.length (tabela_palavras df) <= 15
  /\ NoDup (chaves (tabela_palavras df))
  /\ Forall (fun wc => 0 < snd wc) (tabela_palavras df)
  /\ soma (tabela_palavras df) <= List.length (palavras_filtradas df)
  /\ (soma (tabela_palavras df) = List.length (palavras_filtradas df) <->
      List.length (distintos (palavras_filtradas df)) <= 15)
  /\ (In (SaveFig "palavras_frequentes.png") (eventos (analise_conteudo df)) <->
      palavras_filtradas df <> [])
  /\ (forall i w n,
        In (Print (PalavraChave i w n)) (eventos (analise_conteudo df)) <->
        1 <= i <= 10 /\ nth_error (tabela_palavras df) (i - 1) = Some (w, n)).
Proof.
  pose proof (ordena_positivo (palavras_filtradas df)) as Hpos.
  destruct (soma_head 15 _ Hpos) as [Hle Heq].
  rewrite (soma_perm _ _ (ordena_perm _)), soma_conta in Hle, Heq.
  rewrite (Permutation_length (ordena_perm _)) in Heq.
  assert (Hlen : List.length (conta (palavras_filtradas df)) =
                 List.length (distintos (palavras_filtradas df))).
  { rewrite <- chaves_conta. unfold chaves. now rewrite length_map. }
  rewrite Hlen in Heq.
  split; [unfold tabela_palavras, most_common; rewrite length_firstn; lia|].
  split.
  { unfold tabela_palavras, most_common, chaves. rewrite <- firstn_map.
    apply NoDup_firstn. eapply Permutation_NoDup.
    - symmetry. apply Permutation_map. apply ordena_perm.
    - apply NoDup_chaves_conta. }
  split.
  { apply Forall_forall. intros x Hx. rewrite Forall_forall in Hpos. apply Hpos.
    now apply (firstn_incl 15). }
  split; [exact Hle|]. split; [exact Heq|].
  rewrite <- tabela_palavras_nil, analise_conteudo_corre.
  destruct (tabela_palavras df) as [|x t] eqn:E; unfold eventos; cbn [fst snd]; split.
  - split; [|congruence]. intros [H|[]]. discriminate H.
  - intros i w n. split.
    + intros [H|[]]. discriminate H.
    + intros [_ H]. now destruct (i - 1).
  - split; [discriminate|]. intros _. simpl. tauto.
  - intros i w n. rewrite in_app_iff. split.
    + intros [H|H].
      * simpl in H. repeat (destruct H as [H|H]; [discriminate H|]). destruct H.
      * apply in_map_iff in H. destruct H as [[i' [w' n']] [Heq' Hin]].
        cbn [fst snd] in Heq'. injection Heq' as -> -> ->.
        now apply In_enumerate_firstn in Hin.
    + intros H. right. apply in_map_iff. exists (i, (w, n)).
      split; [reflexivity|]. now apply In_enumerate_firstn.
Qed.

(** ** What a sequence of aggregations leaves in each column *)

Ltac coluna_escrita :=
  unfold preenche_demografia, preenche_uf, converte_data, fillna, to_datetime, coluna;
  rewrite ?map_map;
  cbn [SEXO FAIXA_ETARIA INSTRUCAO ESTADO_CIVIL UF DATA SUGESTAO_TEXTO set_UF set_DATA];
  try reflexivity;
  apply map_ext; intros ?; rewrite ?preenchido_idem, ?coerce_idem; reflexivity.

(** X11.  Whatever aggregations have run, and in whatever order, the table
    has the rows it was loaded with and the suggestions are as loaded.  A
    categorical column is as loaded until the aggregation that reads it has
    run, and from then on it is the loaded column with its missing values
    filled; the date column is as loaded until the temporal aggregation has
    run, and from then on it is the loaded column converted. *)
Theorem colunas_depois (pd : Pandas) (antes : list agregador) (df : DataFrame) :
  let d := depois pd antes df in
  List.length d = List.length df
  /\ coluna SUGESTAO_TEXTO d = coluna SUGESTAO_TEXTO df
  /\ coluna SEXO d = se_correu Demografico antes (fillna NAO_INFORMADO) (coluna SEXO df)
  /\ coluna FAIXA_ETARIA d = se_correu Demografico antes (fillna NAO_INFORMADO) (coluna FAIXA_ETARIA df)
  /\ coluna INSTRUCAO d = se_correu Demografico antes (fillna NAO_INFORMADO) (coluna INSTRUCAO df)
  /\ coluna ESTADO_CIVIL d = se_correu Demografico antes (fillna NAO_INFORMADO) (coluna ESTADO_CIVIL df)
  /\ coluna UF d = se_correu Geografico antes (fillna NAO_INFORMADO) (coluna UF df)
  /\ coluna DATA d = se_correu Cronologico antes (to_datetime pd) (coluna DATA df).
Proof.
  cbv zeta. rewrite depois_escreve. revert df.
  induction antes as [|a antes IH]; intros df.
  - repeat split.
  - cbn [fold_left].
    destruct (IH (escreve pd a df)) as (H0 & H1 & H2 & H3 & H4 & H5 & H6 & H7).
    rewrite H0, H1, H2, H3, H4, H5, H6, H7. clear IH H0 H1 H2 H3 H4 H5 H6 H7.
    unfold se_correu, correu. cbn [existsb].
    destruct a; cbn [mesmo_agregador orb escreve];
      repeat match goal with
             | |- context [existsb ?f ?l] => destruct (existsb f l)
             end;
      (split; [unfold preenche_demografia, preenche_uf, converte_data;
               rewrite ?length_map; reflexivity|]);
      repeat (split; [coluna_escrita|]); coluna_escrita.
Qed.

(** ** The order of the rows *)

Lemma filter_length_perm {A : Type} (f : A -> bool) (l l' : list A) :
  Permutation l l' -> List.length (filter f l) = List.length (filter f l').
Proof.
  induction 1 as [|x l l' _ IH|x y l|l l' l'' _ IH1 _ IH2]; cbn [filter].
  - reflexivity.
  - destruct (f x); cbn [List.length]; now rewrite IH.
  - destruct (f x), (f y); reflexivity.
  - now rewrite IH1.
Qed.

Lemma dropna_perm (s s' : list (option string)) :
  Permutation s s' -> Permutation (dropna s) (dropna s').
Proof.
  induction 1 as [|x s s' _ IH|x y s|s s' s'' _ IH1 _ IH2].
  - reflexivity.
  - destruct x; cbn [dropna]; [now constructor|exact IH].
  - destruct x, y; cbn [dropna]; try reflexivity. apply perm_swap.
  - now rewrite IH1.
Qed.

(** Two monthly tables in chronological order, with no empty month, that
    give every month the same count are the same table. *)
Lemma bem_formada_ext (t u : SerieMensal) :
  bem_formada t -> bem_formada u ->
  (forall k, em_mes k t = em_mes k u) -> t = u.
Proof.
  revert u. induction t as [|[k1 n1] t IH]; intros [|[k2 n2] u] [Hst Hpt] [Hsu Hpu] H.
  - reflexivity.
  - specialize (H k2). cbn [em_mes] in H. rewrite Z.eqb_refl in H.
    inversion Hpu; subst. cbn [snd] in *. lia.
  - specialize (H k1). cbn [em_mes] in H. rewrite Z.eqb_refl in H.
    inversion Hpt; subst. cbn [snd] in *. lia.
  - inversion Hst as [|? ? Hst' Hat]; inversion Hsu as [|? ? Hsu' Hau];
      inversion Hpt as [|? ? Hn1 Hpt']; inversion Hpu as [|? ? Hn2 Hpu']; subst.
    cbn [snd] in Hn1, Hn2.
    assert (Ht0 : forall k, (k <= k1)%Z -> em_mes k t = 0).
    { intros k Hk. apply em_mes_antes. eapply Forall_impl; [|exact Hat].
      unfold crescente. cbn [fst]. intros; lia. }
    assert (Hu0 : forall k, (k <= k2)%Z -> em_mes k u = 0).
    { intros k Hk. apply em_mes_antes. eapply Forall_impl; [|exact Hau].
      unfold crescente. cbn [fst]. intros; lia. }
    assert (Hk : k1 = k2).
    { pose proof (H k1) as H1. pose proof (H k2) as H2. cbn [em_mes] in H1, H2.
      rewrite Z.eqb_refl in H1, H2.
      destruct (Z.eqb_spec k1 k2) as [E|E]; [exact E|].
      destruct (Z.eqb_spec k2 k1) as [E'|E']; [congruence|].
      destruct (Z.lt_total k1 k2) as [Hlt|[Heq|Hgt]]; [|exact Heq|].
      - rewrite (Hu0 k1) in H1 by lia. lia.
      - rewrite (Ht0 k2) in H2 by lia. lia. }
    subst k2. pose proof (H k1) as H1. cbn [em_mes] in H1.
    rewrite Z.eqb_refl in H1. subst n2. f_equal.
    apply IH; [now split|now split|]. intros k.
    destruct (Z.eqb_spec k k1) as [->|Hne].
    + now rewrite Ht0, Hu0 by lia.
    + specialize (H k). cbn [em_mes] in H.
      destruct (Z.eqb_spec k k1); [congruence|exact H].
Qed.

Lemma groupby_size_perm (keys keys' : list (option Z)) :
  Permutation keys keys' -> groupby_size keys = groupby_size keys'.
Proof.
  intros H. apply bem_formada_ext; try apply groupby_size_bem_formada.
  intros k. rewrite !em_mes_groupby_size. unfold quantos.
  now apply filter_length_perm.
Qed.

Lemma value_counts_perm_tabelas (pd pd' : Pandas) (s s' : list (option string)) :
  Permutation s s' -> Permutation (value_counts pd s) (value_counts pd' s').
Proof.
  intros H. apply NoDup_Permutation.
  - apply (NoDup_map_inv fst). apply value_counts_NoDup.
  - apply (NoDup_map_inv fst). apply value_counts_NoDup.
  - intros [k n]. rewrite !value_counts_In.
    assert (E : ocorrencias k (dropna s) = ocorrencias k (dropna s')).
    { unfold ocorrencias. apply Permutation_count_occ. now apply dropna_perm. }
    rewrite E. reflexivity.
Qed.

(** X12.  Two tables with the same rows in another order, each analysed in
    a run of its own, with the sort and the reading of dates of that run.
    The age-bracket table and the counts of missing values are the same.  A
    table sorted by count keeps its rows and their counts, and only their
    order may change.  The monthly table, and with it what the temporal
    analysis returns, is the same when the two runs read every date text of
    the column alike; a column of dates in more than one layout may be read
    differently once its first row changes. *)
Theorem ordem_das_linhas (pd pd' : Pandas) (df df' : DataFrame) :
  Permutation df df' ->
  tabela_faixa_etaria pd df = tabela_faixa_etaria pd' df'
  /\ isnull_sum df = isnull_sum df'
  /\ Permutation (tabela_sexo pd df) (tabela_sexo pd' df')
  /\ Permutation (tabela_uf_completa pd df) (tabela_uf_completa pd' df')
  /\ ((forall x, In (Texto x) (coluna DATA df) ->
                 parse_datetime pd x = parse_datetime pd' x) ->
      tabela_mensal pd df = tabela_mensal pd' df'
      /\ valor (analise_temporal pd df) = valor (analise_temporal pd' df')).
Proof.
  intros Hp.
  assert (Hcol : forall c : Registro -> option string,
    Permutation (fillna NAO_INFORMADO (coluna c df)) (fillna NAO_INFORMADO (coluna c df'))).
  { intros c. unfold fillna, coluna. now repeat apply Permutation_map. }
  split; [|split; [|split; [|split]]].
  - unfold tabela_faixa_etaria, reindex. apply map_ext. intros l. f_equal.
    rewrite !value_counts_loc, !loc_conta.
    assert (E : ocorrencias l (dropna (fillna NAO_INFORMADO (coluna FAIXA_ETARIA df)))
                = ocorrencias l (dropna (fillna NAO_INFORMADO (coluna FAIXA_ETARIA df')))).
    { unfold ocorrencias. apply Permutation_count_occ. apply dropna_perm, Hcol. }
    rewrite E. reflexivity.
  - assert (Hn : forall (A : Type) (f : A -> bool) (c : Registro -> A),
              conta_nulos f (coluna c df) = conta_nulos f (coluna c df')).
    { intros A f c. unfold conta_nulos, coluna. apply filter_length_perm.
      now apply Permutation_map. }
    unfold isnull_sum.
    now rewrite (Hn _ nulo SEXO), (Hn _ nulo FAIXA_ETARIA), (Hn _ nulo INSTRUCAO),
      (Hn _ nulo ESTADO_CIVIL), (Hn _ nulo UF), (Hn _ isnull_data DATA),
      (Hn _ nulo SUGESTAO_TEXTO).
  - apply value_counts_perm_tabelas, Hcol.
  - apply value_counts_perm_tabelas, Hcol.
  - intros Hler.
    assert (Hm : tabela_mensal pd df = tabela_mensal pd' df').
    { unfold tabela_mensal, to_datetime.
      assert (E : map (coerce pd) (coluna DATA df) = map (coerce pd') (coluna DATA df)).
      { apply map_ext_in. intros [| x | |t] Hin; cbn [coerce]; try reflexivity.
        now rewrite (Hler x Hin). }
      rewrite E. apply groupby_size_perm. unfold coluna.
      now repeat apply Permutation_map. }
    split; [exact Hm|]. rewrite !analise_temporal_valor, Hm. reflexivity.
Qed.

Lemma ordem_das_linhas_witness :
  isnull_sum uma_data_ilegivel = isnull_sum (rev uma_data_ilegivel)
  /\ Permutation (tabela_uf_completa pandas_estavel uma_data_ilegivel)
                 (tabela_uf_completa pandas_estavel (rev uma_data_ilegivel))
  /\ tabela_mensal pandas_estavel uma_data_ilegivel =
       tabela_mensal pandas_estavel (rev uma_data_ilegivel).
Proof.
  destruct (ordem_das_linhas pandas_estavel pandas_estavel
              uma_data_ilegivel (rev uma_data_ilegivel)
              (Permutation_rev uma_data_ilegivel)) as (_ & H2 & _ & H4 & H5).
  split; [exact H2|]. split; [exact H4|].
  exact (proj1 (H5 (fun _ _ => eq_refl))).
Defined.

(** ** The statistics of the demographic analysis *)

Lemma com_sexo_ocorrencias (v : string) (df : DataFrame) :
  com_sexo v df = ocorrencias v (dropna (coluna SEXO df)).
Proof.
  unfold com_sexo, ocorrencias, coluna.
  induction df as [|r df IH]; [reflexivity|]. cbn [filter map].
  destruct (SEXO r) as [s|]; cbn [dropna count_occ]; [|exact IH].
  destruct (string_dec s v) as [->|Hne].
  - rewrite String.eqb_refl. cbn [List.length]. now rewrite IH.
  - apply String.eqb_neq in Hne. now rewrite Hne.
Qed.

Lemma ocorrencias_preenchidas (v : string) (s : list (option string)) :
  ocorrencias v (dropna (fillna NAO_INFORMADO s)) =
  ocorrencias v (dropna s)
  + (if String.eqb v NAO_INFORMADO then conta_nulos nulo s else 0).
Proof.
  unfold ocorrencias, fillna, conta_nulos.
  induction s as [|[x|] s IH]; cbn [map preenchido dropna count_occ filter nulo].
  - now destruct (String.eqb v NAO_INFORMADO).
  - destruct (string_dec x v); rewrite IH; lia.
  - rewrite IH. destruct (string_dec NAO_INFORMADO v) as [<-|Hne].
    + rewrite String.eqb_refl. cbn [List.length]. lia.
    + destruct (String.eqb_spec v NAO_INFORMADO); [congruence|lia].
Qed.

Lemma tres_rotulos (a b c : string) (l : list string) :
  a <> b -> a <> c -> b <> c ->
  ocorrencias a l + ocorrencias b l + ocorrencias c l <= List.length l.
Proof.
  intros Hab Hac Hbc. unfold ocorrencias.
  induction l as [|x l IH]; cbn [count_occ List.length]; [lia|].
  destruct (string_dec x a), (string_dec x b), (string_dec x c); subst;
    try congruence; lia.
Qed.

Ltac casos_em H :=
  simpl in H; repeat destruct H as [H|H]; try discriminate H; try contradiction.

(** X13.  The three statistics lines are printed exactly when the table
    has rows.  The men and the women are the rows that carry these labels in
    the table as loaded, the same counts the sex table gives them; the rows
    without sex are those whose sex is missing together with those labelled
    NAO INFORMADO.  Every share is taken of all the rows, and the three
    counts together never exceed their number. *)
Theorem estatisticas_de_sexo (pd : Pandas) (df : DataFrame) :
  let homens := com_sexo "MASCULINO" df in
  let mulheres := com_sexo "FEMININO" df in
  let sem_sexo := conta_nulos nulo (coluna SEXO df) + com_sexo NAO_INFORMADO df in
  (forall n total,
     In (Print (Homens n total)) (eventos (analise_demografica pd df)) <->
     df <> [] /\ n = homens /\ total = List.length df)
  /\ (forall n total,
        In (Print (Mulheres n total)) (eventos (analise_demografica pd df)) <->
        df <> [] /\ n = mulheres /\ total = List.length df)
  /\ (forall n,
        In (Print (SexoNaoInformado n)) (eventos (analise_demografica pd df)) <->
        df <> [] /\ n = sem_sexo)
  /\ homens = contagem_de "MASCULINO" (tabela_sexo pd df)
  /\ mulheres = contagem_de "FEMININO" (tabela_sexo pd df)
  /\ sem_sexo = contagem_de NAO_INFORMADO (tabela_sexo pd df)
  /\ homens + mulheres + sem_sexo <= List.length df.
Proof.
  intros homens mulheres sem_sexo.
  assert (Hcol : coluna SEXO (preenche_demografia df) = fillna NAO_INFORMADO (coluna SEXO df)).
  { unfold preenche_demografia, fillna, coluna. now rewrite !map_map. }
  assert (Hc : forall v, com_sexo v (preenche_demografia df) =
                         contagem_de v (tabela_sexo pd df)).
  { intros v. rewrite com_sexo_ocorrencias, Hcol. unfold contagem_de, tabela_sexo.
    rewrite value_counts_loc. symmetry. apply contagem_de_conta. }
  assert (Hh : contagem_de "MASCULINO" (tabela_sexo pd df) = homens).
  { rewrite <- Hc, com_sexo_ocorrencias, Hcol, ocorrencias_preenchidas.
    unfold homens. rewrite com_sexo_ocorrencias.
    destruct (String.eqb_spec "MASCULINO" NAO_INFORMADO) as [E|_]; [discriminate E|lia]. }
  assert (Hm : contagem_de "FEMININO" (tabela_sexo pd df) = mulheres).
  { rewrite <- Hc, com_sexo_ocorrencias, Hcol, ocorrencias_preenchidas.
    unfold mulheres. rewrite com_sexo_ocorrencias.
    destruct (String.eqb_spec "FEMININO" NAO_INFORMADO) as [E|_]; [discriminate E|lia]. }
  assert (Hn : contagem_de NAO_INFORMADO (tabela_sexo pd df) = sem_sexo).
  { rewrite <- Hc, com_sexo_ocorrencias, Hcol, ocorrencias_preenchidas.
    unfold sem_sexo. rewrite com_sexo_ocorrencias, String.eqb_refl. lia. }
  rewrite analise_demografica_corre. unfold eventos. cbn [fst snd].
  rewrite !Hc, Hh, Hm, Hn.
  split; [|split; [|split; [|split; [|split; [|split]]]]]; try reflexivity.
  - intros n total. rewrite in_app_iff. destruct df as [|r df0]; split.
    + intros [H|[]]. casos_em H.
    + intros [H _]. congruence.
    + intros [H|H]; casos_em H.
      injection H as <- <-. split; [discriminate|]. split; reflexivity.
    + intros (_ & -> & ->). right. simpl. tauto.
  - intros n total. rewrite in_app_iff. destruct df as [|r df0]; split.
    + intros [H|[]]. casos_em H.
    + intros [H _]. congruence.
    + intros [H|H]; casos_em H.
      injection H as <- <-. split; [discriminate|]. split; reflexivity.
    + intros (_ & -> & ->). right. simpl. tauto.
  - intros n. rewrite in_app_iff. destruct df as [|r df0]; split.
    + intros [H|[]]. casos_em H.
    + intros [H _]. congruence.
    + intros [H|H]; casos_em H.
      injection H as <-. split; [discriminate|reflexivity].
    + intros (_ & ->). right. simpl. tauto.
  - rewrite <- Hh, <- Hm, <- Hn, <- !Hc, !com_sexo_ocorrencias, Hcol.
    etransitivity; [apply tres_rotulos; discriminate|].
    rewrite dropna_fillna_length. unfold coluna. now rewrite length_map.
Qed.

(** ** The demographic analysis on a table without rows *)

(** X2.  The demographic analysis draws its four tables, saves its figure and
    prints the heading of the statistics on every table.  On a table without
    rows, and on no other, it stops there: no share is printed and the
    division by the number of rows in the line of the share of men raises
    [ZeroDivisionError].  The tables drawn on the empty table are empty, but
    for the age brackets, which are the eight brackets with count zero. *)
Theorem demografia_tabela_vazia (pd : Pandas) (df : DataFrame) :
  (df = [] <-> valor (analise_demografica pd df) = Raise ZeroDivisionError)
  /\ In (SaveFig "perfil_demografico.png") (eventos (analise_demografica pd df))
  /\ (exists estatisticas,
        eventos (analise_demografica pd df) =
          [ Print (Cabecalho Demografica);
            Plot (Pizza (tabela_sexo pd df));
            Plot (Barras (tabela_faixa_etaria pd df));
            Plot (BarrasHorizontais (tabela_instrucao pd df));
            Plot (Pizza (tabela_estado_civil pd df));
            SaveFig "perfil_demografico.png";
            Print EstatisticasDetalhadas ] ++ estatisticas
        /\ (df = [] <-> estatisticas = []))
  /\ analise_demografica pd [] =
       ([],
        [ Print (Cabecalho Demografica);
          Plot (Pizza []);
          Plot (Barras (map (fun faixa => (faixa, 0)) ordem_faixa));
          Plot (BarrasHorizontais []);
          Plot (Pizza []);
          SaveFig "perfil_demografico.png";
          Print EstatisticasDetalhadas ],
        Raise ZeroDivisionError).
Proof.
  split; [|split; [|split]].
  - rewrite analise_demografica_corre. unfold valor. cbn [snd].
    destruct df; split; congruence.
  - rewrite analise_demografica_corre. unfold eventos. cbn [fst snd]. simpl. tauto.
  - rewrite analise_demografica_corre. unfold eventos. cbn [fst snd].
    eexists. split; [reflexivity|]. destruct df; split; congruence.
  - rewrite analise_demografica_corre.
    unfold tabela_sexo, tabela_faixa_etaria, tabela_instrucao, tabela_estado_civil,
      preenche_demografia, fillna, coluna, head.
    cbn [map]. rewrite value_counts_nil. reflexivity.
Qed.

(** ** The most frequent categories *)

Lemma StronglySorted_app_le (t u : Serie) :
  StronglySorted decrescente (t ++ u) ->
  forall x y, In x t -> In y u -> snd y <= snd x.
Proof.
  induction t as [|a t IH]; cbn [app]; intros Hs x y Hx Hy; [destruct Hx|].
  inversion Hs as [|? ? Hs' Hall]; subst. destruct Hx as [<-|Hx].
  - rewrite Forall_forall in Hall. apply (Hall y). apply in_or_app. now right.
  - now apply (IH Hs' x y).
Qed.

(** The first rows of a table whose counts are those of a column and are
    in descending order: a label left out occurs no more often than any
    label kept. *)
Lemma cabeca_mais_frequente (n : nat) (l : list string) (t : Serie) :
  Permutation t (conta l) -> Sorted decrescente t ->
  List.length (firstn n t) = Nat.min n (List.length (distintos l))
  /\ forall k c k',
       In (k, c) (firstn n t) -> ~ In k' (chaves (firstn n t)) ->
       ocorrencias k' l <= c.
Proof.
  intros Hp Hs. split.
  - rewrite length_firstn, (Permutation_length Hp), <- chaves_conta.
    unfold chaves. now rewrite length_map.
  - intros k c k' Hin Hout.
    destruct (ocorrencias k' l) as [|m] eqn:E; [lia|].
    assert (Hk' : In (k', S m) t).
    { apply (Permutation_in _ (Permutation_sym Hp)). apply In_conta.
      split; [now rewrite E|lia]. }
    rewrite <- (firstn_skipn n t) in Hk', Hs. apply in_app_or in Hk'.
    destruct Hk' as [Hk'|Hk'].
    + exfalso. apply Hout. unfold chaves. apply in_map_iff. now exists (k', S m).
    + apply Sorted_StronglySorted in Hs; [|exact decrescente_trans].
      apply (StronglySorted_app_le _ _ Hs (k, c) (k', S m) Hin Hk').
Qed.

(** X14.  The tables cut to their first rows hold the most frequent
    categories: the education table has the 8 most frequent levels or all of
    them if there are fewer, the marital-status table 6, the ranking of
    regions 10 and the table of words 15, and in each a category left out
    occurs no more often than any category kept. *)
Theorem categorias_mais_frequentes (pd : Pandas) (df : DataFrame) :
  let preenchida c := dropna (fillna NAO_INFORMADO (coluna c df)) in
  mais_frequentes 8 (preenchida INSTRUCAO) (tabela_instrucao pd df)
  /\ mais_frequentes 6 (preenchida ESTADO_CIVIL) (tabela_estado_civil pd df)
  /\ mais_frequentes 10 (preenchida UF) (tabela_uf pd df)
  /\ mais_frequentes 15 (palavras_filtradas df) (tabela_palavras df).
Proof.
  cbv zeta. unfold mais_frequentes. repeat split;
    try (apply cabeca_mais_frequente;
         [apply sort_values_perm + apply ordena_perm
         |apply sort_values_desc + apply ordena_sorted]);
    try (intros k c k';
         apply cabeca_mais_frequente;
         [apply sort_values_perm + apply ordena_perm
         |apply sort_values_desc + apply ordena_sorted]).
Qed.
